(** * Datos_organizados.py: line parser and hourly aggregation

    A shallow embedding of [parse_line] and [procesar_buffer] of
    [Datos_organizados.py], and the properties of the line grammar and of the
    hourly mean table that follow from the code.

    Python values are modelled as follows.
    - [str] is a list of Unicode code points ([N]); [str.strip], [str.lstrip],
      [str.replace], [str.split] and the two regular expressions of the
      module are written out on that representation.
    - A Python exception is the [Raise] constructor of [result]; a function
      that returns normally yields [Ret].
    - [None] is [None]; a list of tokens is a [list str].
    - The pandas frame is a list of rows; a cell that failed coercion
      ([NaN], [NaT]) is [None].  The arithmetic of the numeric cells is
      pandas's: the type of the values and the mean of the valid values of
      a column of a group are taken as given, and the examples run with
      binary64 numbers and the compensated sum pandas uses. *)

From Stdlib Require Import List NArith ZArith Bool Lia String Ascii.
From Stdlib Require Import Permutation Sorted Floats Uint63.
Import ListNotations.

Open Scope N_scope.

(** ** Python strings *)

Module PyStr.

Definition char := N.
Definition str := list char.

(** An ASCII literal as a Python [str]. *)
Definition of_string (s : string) : str :=
  map N_of_ascii (list_ascii_of_string s).

Definition ch (a : ascii) : char := N_of_ascii a.

Fixpoint str_eqb (a b : str) : bool :=
  match a, b with
  | [], [] => true
  | x :: a', y :: b' => (x =? y) && str_eqb a' b'
  | _, _ => false
  end.

Definition in_range (c lo hi : char) : bool := (lo <=? c) && (c <=? hi).

Definition in_ranges (tbl : list (char * char)) (c : char) : bool :=
  existsb (fun r => in_range c (fst r) (snd r)) tbl.

(** [str.isspace] on one code point: the characters [str.strip] and
    [str.lstrip] remove when called without argument (CPython 3.11). *)
Definition whitespace_table : list (char * char) :=
  [ (0x9, 0xd); (0x1c, 0x20); (0x85, 0x85); (0xa0, 0xa0); (0x1680, 0x1680);
    (0x2000, 0x200a); (0x2028, 0x2029); (0x202f, 0x202f); (0x205f, 0x205f);
    (0x3000, 0x3000) ].

Definition isspace (c : char) : bool := in_ranges whitespace_table c.

(** Unicode general category Nd (Unicode 14.0, CPython 3.11): what [\d]
    matches in a [str] pattern. *)
Definition decimal_table : list (char * char) :=
  [ (0x30, 0x39); (0x660, 0x669); (0x6f0, 0x6f9); (0x7c0, 0x7c9);
    (0x966, 0x96f); (0x9e6, 0x9ef); (0xa66, 0xa6f); (0xae6, 0xaef);
    (0xb66, 0xb6f); (0xbe6, 0xbef); (0xc66, 0xc6f); (0xce6, 0xcef);
    (0xd66, 0xd6f); (0xde6, 0xdef); (0xe50, 0xe59); (0xed0, 0xed9);
    (0xf20, 0xf29); (0x1040, 0x1049); (0x1090, 0x1099); (0x17e0, 0x17e9);
    (0x1810, 0x1819); (0x1946, 0x194f); (0x19d0, 0x19d9); (0x1a80, 0x1a89);
    (0x1a90, 0x1a99); (0x1b50, 0x1b59); (0x1bb0, 0x1bb9); (0x1c40, 0x1c49);
    (0x1c50, 0x1c59); (0xa620, 0xa629); (0xa8d0, 0xa8d9); (0xa900, 0xa909);
    (0xa9d0, 0xa9d9); (0xa9f0, 0xa9f9); (0xaa50, 0xaa59); (0xabf0, 0xabf9);
    (0xff10, 0xff19); (0x104a0, 0x104a9); (0x10d30, 0x10d39);
    (0x11066, 0x1106f); (0x110f0, 0x110f9); (0x11136, 0x1113f);
    (0x111d0, 0x111d9); (0x112f0, 0x112f9); (0x11450, 0x11459);
    (0x114d0, 0x114d9); (0x11650, 0x11659); (0x116c0, 0x116c9);
    (0x11730, 0x11739); (0x118e0, 0x118e9); (0x11950, 0x11959);
    (0x11c50, 0x11c59); (0x11d50, 0x11d59); (0x11da0, 0x11da9);
    (0x16a60, 0x16a69); (0x16ac0, 0x16ac9); (0x16b50, 0x16b59);
    (0x1d7ce, 0x1d7ff); (0x1e140, 0x1e149); (0x1e2f0, 0x1e2f9);
    (0x1e950, 0x1e959); (0x1fbf0, 0x1fbf9) ].

Definition isdecimal (c : char) : bool := in_ranges decimal_table c.

(** [[A-Za-z]] and [[0-9A-Fa-f]]: explicit ASCII classes. *)
Definition isalpha_ascii (c : char) : bool :=
  in_range c 0x41 0x5a || in_range c 0x61 0x7a.

Definition ishex (c : char) : bool :=
  in_range c 0x30 0x39 || in_range c 0x41 0x46 || in_range c 0x61 0x66.

(** [s.lstrip()] *)
Fixpoint lstrip (s : str) : str :=
  match s with
  | [] => []
  | c :: s' => if isspace c then lstrip s' else s
  end.

(** [s.rstrip()] *)
Definition rstrip (s : str) : str := rev (lstrip (rev s)).

(** [s.strip()] *)
Definition strip (s : str) : str := rstrip (lstrip s).

(** [s.lstrip(c)] for a one-character argument. *)
Fixpoint lstrip_char (c : char) (s : str) : str :=
  match s with
  | [] => []
  | x :: s' => if x =? c then lstrip_char c s' else s
  end.

(** [s.replace(c, '')] for a one-character [c]. *)
Definition remove_char (c : char) (s : str) : str :=
  filter (fun x => negb (x =? c)) s.

(** [s.split(sep)] for a one-character separator: never the empty list. *)
Fixpoint split (sep : char) (s : str) : list str :=
  match s with
  | [] => [[]]
  | c :: s' =>
      if c =? sep then [] :: split sep s'
      else match split sep s' with
           | w :: ws => (c :: w) :: ws
           | [] => [[c]]
           end
  end.

(** [s.split(sep, 1)]: one element when [sep] does not occur, else two. *)
Fixpoint split1 (sep : char) (s : str) : list str :=
  match s with
  | [] => [[]]
  | c :: s' =>
      if c =? sep then [[]; s']
      else match split1 sep s' with
           | w :: ws => (c :: w) :: ws
           | [] => [[c]]
           end
  end.

End PyStr.

Export PyStr.

(** ** Exceptions and list operations that can raise *)

Inductive exn : Type :=
| IndexError
| ValueError (msg : string).

Inductive result (A : Type) : Type :=
| Ret (a : A)
| Raise (e : exn).

Arguments Ret {A} a.
Arguments Raise {A} e.

Definition bind {A B : Type} (m : result A) (k : A -> result B) : result B :=
  match m with
  | Ret a => k a
  | Raise e => Raise e
  end.

Notation "x <- m ;; k" := (bind m (fun x => k))
  (at level 61, m at next level, right associativity).

Module PyList.
Section Ops.
Context {A : Type}.

(** Python index normalisation: a negative index counts from the end;
    an index outside [0, len) has no position. *)
Definition norm_index (l : list A) (i : Z) : option nat :=
  let n := Z.of_nat (List.length l) in
  let j := (if i <? 0 then i + n else i)%Z in
  if ((0 <=? j) && (j <? n))%Z then Some (Z.to_nat j) else None.

Fixpoint remove_at (k : nat) (l : list A) : list A :=
  match l, k with
  | [], _ => []
  | _ :: l', O => l'
  | x :: l', S k' => x :: remove_at k' l'
  end.

Fixpoint update_at (k : nat) (v : A) (l : list A) : list A :=
  match l, k with
  | [], _ => []
  | _ :: l', O => v :: l'
  | x :: l', S k' => x :: update_at k' v l'
  end.

(** [l[i]] *)
Definition getitem (l : list A) (i : Z) : result A :=
  match norm_index l i with
  | Some k => match nth_error l k with
              | Some x => Ret x
              | None => Raise IndexError
              end
  | None => Raise IndexError
  end.

(** [l[i] = v], returning the updated list. *)
Definition setitem (l : list A) (i : Z) (v : A) : result (list A) :=
  match norm_index l i with
  | Some k => Ret (update_at k v l)
  | None => Raise IndexError
  end.

(** [l.pop(i)], returning the list that remains. *)
Definition pop (l : list A) (i : Z) : result (list A) :=
  match norm_index l i with
  | Some k => Ret (remove_at k l)
  | None => Raise IndexError
  end.

(** Truth value of a list: [if l]. *)
Definition truthy (l : list A) : bool :=
  match l with [] => false | _ :: _ => true end.
End Ops.
End PyList.

Import PyList.

(** ** Regular expressions of the module *)

Module Regex.

(** One character class of the pattern. *)
Inductive cls : Type :=
| Alpha            (* [A-Za-z] *)
| Digit            (* \d *)
| Lit (c : char).  (* a literal character *)

Definition cls_match (k : cls) (c : char) : bool :=
  match k with
  | Alpha => isalpha_ascii c
  | Digit => isdecimal c
  | Lit d => c =? d
  end.

(** [re.match] of a sequence of single-character classes anchored at the
    start: the subject must begin with characters of the classes in turn. *)
Fixpoint re_match (p : list cls) (s : str) : bool :=
  match p with
  | [] => true
  | k :: p' =>
      match s with
      | [] => false
      | c :: s' => cls_match k c && re_match p' s'
      end
  end.

(** [^[A-Za-z]{3} \d{2} [A-Za-z]{3} \d{4} \d{2}:\d{2}:\d{2}] *)
Definition preamble : list cls :=
  repeat Alpha 3 ++ [Lit (ch " ")] ++ repeat Digit 2 ++ [Lit (ch " ")] ++
  repeat Alpha 3 ++ [Lit (ch " ")] ++ repeat Digit 4 ++ [Lit (ch " ")] ++
  repeat Digit 2 ++ [Lit (ch ":")] ++ repeat Digit 2 ++ [Lit (ch ":")] ++
  repeat Digit 2.

(** [re.fullmatch(r'[0-9A-Fa-f]{1,2}', s)] *)
Definition is_crc (s : str) : bool :=
  match s with
  | [a] => ishex a
  | [a; b] => ishex a && ishex b
  | _ => false
  end.

End Regex.

Import Regex.

(** ** 1. parse_line *)

Definition STX : char := 2.
Definition ETX : char := 3.
Definition comma : char := ch ",".
Definition plus : char := ch "+".
Definition Q_marker : str := of_string "Q".

(** [p.replace('\x02', '').replace('\x03', '').strip()] *)
Definition clean (p : str) : str :=
  strip (remove_char ETX (remove_char STX p)).

(** The list comprehension: the pieces of [rest.split(",")] that are not the
    empty string, each then cleaned. *)
Definition tokenize (rest : str) : list str :=
  map clean (filter (fun p => negb (str_eqb p [])) (split comma rest)).

(** [if parts and parts[0] == "Q": parts.pop(0)] *)
Definition drop_query (parts : list str) : result (list str) :=
  if truthy parts then
    p0 <- getitem parts 0 ;;
    if str_eqb p0 Q_marker then pop parts 0 else Ret parts
  else Ret parts.

(** [if parts and re.fullmatch(r'[0-9A-Fa-f]{1,2}', parts[-1]): crc = parts.pop()] *)
Definition drop_crc (parts : list str) : result (list str) :=
  if truthy parts then
    pl <- getitem parts (-1) ;;
    if is_crc pl then pop parts (-1) else Ret parts
  else Ret parts.

(** From the arity test to the end of [parse_line]. *)
Definition finish (parts : list str) : result (option (list str)) :=
  if negb (Nat.eqb (List.length parts) 13) then Ret None
  else
    p5 <- getitem parts 5 ;;
    parts <- setitem parts 5 (lstrip_char plus p5) ;;
    p6 <- getitem parts 6 ;;
    parts <- setitem parts 6 (lstrip_char plus p6) ;;
    parts <- pop parts (-2) ;;
    Ret (Some parts).

Definition parse_line (line : str) : result (option (list str)) :=
  if negb (re_match preamble line) then Ret None
  else
    rest0 <- getitem (split1 comma line) 1 ;;
    let rest := lstrip rest0 in
    parts <- drop_query (tokenize rest) ;;
    parts <- drop_crc parts ;;
    finish parts.

(** ** 2. The pandas frame of procesar_buffer *)

Definition cols : list string :=
  [ "DirViento"; "VelViento"; "DirVientoCorr"; "Presion"; "Humedad";
    "Temp"; "PuntoRocio"; "PrecipTotal"; "IntensidadPrec";
    "Irradiancia"; "FechaISO"; "Flag" ]%string.

(** [num = [c for c in cols if c not in ("FechaISO", "Flag")]] *)
Definition num : list string :=
  filter (fun c => negb (String.eqb c "FechaISO" || String.eqb c "Flag")) cols.

(** Position of a column label in [cols]. *)
Fixpoint label_index (c : string) (l : list string) : nat :=
  match l with
  | [] => O
  | d :: l' => if String.eqb c d then O else S (label_index c l')
  end.

Definition col_index (c : string) : nat := label_index c cols.

(** Positions in [num] of the columns used in the examples. *)
Definition VelViento : nat := label_index "VelViento" num.
Definition Humedad : nat := label_index "Humedad" num.
Definition Temp : nat := label_index "Temp" num.

(** Nanoseconds in one hour: the unit of [dt.floor("h")]. *)
Definition hour_ns : Z := 3600 * 1000000000.

(** [Series.dt.floor("h")] on one timestamp. *)
Definition floor_hour (t : Z) : Z := ((t / hour_ns) * hour_ns)%Z.

(** Column [j] of the frame built from the records. *)
Definition column (j : nat) (filas : list (list str)) : list str :=
  map (fun f => nth j f []) filas.

(** [[f for f in filas if f]] *)
Definition keep_records (filas : list (option (list str))) : list (list str) :=
  flat_map (fun f => match f with
                     | Some r => if truthy r then [r] else []
                     | None => []
                     end) filas.

(** [[parse_line(l) for l in lines]]: the first exception ends the loop. *)
Fixpoint parse_lines (lines : list str) : result (list (option (list str))) :=
  match lines with
  | [] => Ret []
  | l :: lines' =>
      f <- parse_line l ;;
      fs <- parse_lines lines' ;;
      Ret (f :: fs)
  end.

(** A calendar date and time of day as a pandas timestamp (nanoseconds since
    1970-01-01T00:00:00), used to write the examples. *)
Definition days_from_civil (y m d : Z) : Z :=
  (let y' := if m <=? 2 then y - 1 else y in
   let era := y' / 400 in
   let yoe := y' - era * 400 in
   let doy := (153 * (if m >? 2 then m - 3 else m + 9) + 2) / 5 + d - 1 in
   let doe := yoe * 365 + yoe / 4 - yoe / 100 + doy in
   era * 146097 + doe - 719468)%Z.

Definition timestamp (y m d hh mm ss : Z) : Z :=
  ((((days_from_civil y m d * 24 + hh) * 60 + mm) * 60 + ss) * 1000000000)%Z.

(** ** 3. parse_file

    [[row for l in f if (row := parse_line(l))]] over the lines of the
    opened file: the rows that are truthy, in file order; the first
    exception ends the loop. *)
Fixpoint parse_file (lines : list str) : result (list (list str)) :=
  match lines with
  | [] => Ret []
  | l :: lines' =>
      row <- parse_line l ;;
      rows <- parse_file lines' ;;
      Ret (match row with
           | Some r => if truthy r then r :: rows else rows
           | None => rows
           end)
  end.

(** ** Notions used to state the properties of parse_line *)

(** Positions 5 and 6 after [lstrip("+")]: the two assignments of [parse_line]. *)
Definition sign_normalised (parts : list str) : list str :=
  update_at 6 (lstrip_char plus (nth 6 parts []))
    (update_at 5 (lstrip_char plus (nth 5 parts [])) parts).

(** [sep.join(pieces)] *)
Fixpoint join (sep : char) (pieces : list str) : str :=
  match pieces with
  | [] => []
  | [p] => p
  | p :: ps => p ++ sep :: join sep ps
  end.

(** The characters that [clean] removes wherever they stand or at either end. *)
Definition is_filler (c : char) : Prop :=
  c = STX \/ c = ETX \/ isspace c = true.

(** What [drop_query] and [drop_crc] leave, and the tokens that reach the
    arity test for the text [rest0] found after the first comma. *)
Definition without_query (parts : list str) : list str :=
  match parts with
  | p0 :: tl => if str_eqb p0 Q_marker then tl else parts
  | [] => []
  end.

Definition without_crc (parts : list str) : list str :=
  if truthy parts && is_crc (last parts []) then removelast parts else parts.

Definition arity_tokens (rest0 : str) : list str :=
  without_crc (without_query (tokenize (lstrip rest0))).

(** A field of a record by its column label. *)
Definition field (c : string) (r : list str) : str := nth (col_index c) r [].

(** What [parse_line] returns when it returns. *)
Definition parsed (l : str) : option (list str) :=
  match parse_line l with
  | Ret f => f
  | Raise _ => None
  end.

(** ** Binary64 arithmetic for the examples

    The properties below hold whatever the arithmetic of the numeric cells
    is.  The examples run the whole pipeline, and for that they use binary64
    numbers with the mean as pandas computes it for one column of one group:
    a compensated sum of the values that are not NaN, in frame order,
    divided by their number. *)

Definition kahan_step (st : float * float * nat) (val : float) : float * float * nat :=
  let '(sumx, compensation, nobs) := st in
  if PrimFloat.is_nan val then st
  else
    let y := (val - compensation)%float in
    let t := (sumx + y)%float in
    let c := (t - sumx - y)%float in
    (t, (if PrimFloat.is_nan c then 0%float else c), S nobs).

Definition pandas_mean (vs : list float) : option float :=
  let '(sumx, _, nobs) := fold_left kahan_step vs (0%float, 0%float, O) in
  match nobs with
  | O => None
  | S _ =>
      let r := (sumx / PrimFloat.of_uint63 (Uint63.of_Z (Z.of_nat nobs)))%float in
      if PrimFloat.is_nan r then None else Some r
  end.

(** Two entrywise coercions that read the plain forms a station frame
    carries (a signed decimal number, a timestamp written
    [YYYY-MM-DDTHH:MM:SS]) and answer [None] on anything else.  They stand
    in for [pd.to_numeric] and [pd.to_datetime] where an example needs the
    whole pipeline to run; pandas itself accepts more forms than these. *)

Definition digit_value (c : char) : option Z :=
  if in_range c 0x30 0x39 then Some (Z.of_N c - 48)%Z else None.

Fixpoint digits_value (s : str) (acc : Z) : option Z :=
  match s with
  | [] => Some acc
  | c :: s' =>
      match digit_value c with
      | Some d => digits_value s' (acc * 10 + d)%Z
      | None => None
      end
  end.

(** A non-empty run of ASCII digits as a number. *)
Definition natural (s : str) : option Z :=
  match s with
  | [] => None
  | _ :: _ => digits_value s 0%Z
  end.

(** [n / 10^k] in binary64, for [n] below 2^53 and [k] at most 22: both are
    then binary64 numbers, and their quotient is the binary64 number nearest
    to the decimal. *)
Definition decimal (n k : Z) : option float :=
  if ((n <? 2 ^ 53) && (k <=? 22))%Z
  then Some (PrimFloat.of_uint63 (Uint63.of_Z n)
             / PrimFloat.of_uint63 (Uint63.of_Z (10 ^ k)))%float
  else None.

Definition unsigned_decimal (s : str) : option float :=
  match split (ch ".") s with
  | [i] => match natural i with
           | Some n => decimal n 0
           | None => None
           end
  | [i; f] =>
      match natural i, natural f with
      | Some n, Some m =>
          let k := Z.of_nat (List.length f) in
          decimal (n * 10 ^ k + m) k
      | _, _ => None
      end
  | _ => None
  end.

Definition sample_numeric (s : str) : option float :=
  match s with
  | c :: s' =>
      if c =? ch "-" then option_map PrimFloat.opp (unsigned_decimal s')
      else unsigned_decimal s
  | [] => None
  end.

Definition sample_datetime (s : str) : option Z :=
  match s with
  | [y1; y2; y3; y4; d1; m1; m2; d2; a1; a2; sep; h1; h2; c1; n1; n2; c2; s1; s2] =>
      if (d1 =? ch "-") && (d2 =? ch "-") && (sep =? ch "T")
         && (c1 =? ch ":") && (c2 =? ch ":")
      then
        match natural [y1; y2; y3; y4], natural [m1; m2], natural [a1; a2],
              natural [h1; h2], natural [n1; n2], natural [s1; s2] with
        | Some y, Some m, Some d, Some hh, Some mm, Some ss =>
            if ((1 <=? m) && (m <=? 12) && (1 <=? d) && (d <=? 31)
                && (hh <=? 23) && (mm <=? 59) && (ss <=? 59))%Z
            then Some (timestamp y m d hh mm ss)
            else None
        | _, _, _, _, _, _ => None
        end
      else None
  | _ => None
  end.

Definition sample_to_numeric (col : list str) : list (option float) :=
  map sample_numeric col.

Definition sample_to_datetime (col : list str) : list (option Z) :=
  map sample_datetime col.

(** ** Station frames used in the examples *)

Definition frame_1015 : str := of_string
  "Mon 01 Jan 2024 10:15:02,Q,270,3.1,268,1013.2,55,+20,+12.0,0.0,0.0,412,2024-01-01T10:15:00,0,0,7C".

(** The same station a half hour later, with no humidity reading. *)
Definition frame_1045 : str := of_string
  "Mon 01 Jan 2024 10:45:02,Q,270,3.1,268,1013.2,xx,+22,-12.5,0.0,0.0,412,2024-01-01T10:45:00,0,0,7C".

(** A frame whose clock field is not a date. *)
Definition frame_no_clock : str := of_string
  "Mon 01 Jan 2024 11:15:02,Q,270,3.1,268,1013.2,55,+20,+12.0,0.0,0.0,412,----,0,0,7C".

Definition station_records : list (list str) :=
  keep_records (map parsed [frame_1015; frame_1045; frame_no_clock]).

(** Four frames of one hour that differ in wind speed only: 0.1, 0.1, 0.1
    and 0.4. *)
Definition calm_1205 : str := of_string
  "Mon 01 Jan 2024 12:05:02,Q,270,0.1,268,1013.2,55,+20,+12.0,0.0,0.0,412,2024-01-01T12:05:00,0,0,7C".

Definition calm_1225 : str := of_string
  "Mon 01 Jan 2024 12:25:02,Q,270,0.1,268,1013.2,55,+20,+12.0,0.0,0.0,412,2024-01-01T12:25:00,0,0,7C".


Definition breeze_1245 : str := of_string
  "Mon 01 Jan 2024 12:45:02,Q,270,0.4,268,1013.2,55,+20,+12.0,0.0,0.0,412,2024-01-01T12:45:00,0,0,7C".

(** ** The frame and the table *)

Section Frame.

(** The numeric cells of the frame are binary64 numbers, and their
    arithmetic is pandas's, not the module's.  Like the two coercions it is
    taken as given: [float64] is the type of the values other than NaN, and
    [mean_of] is what [DataFrameGroupBy.mean] computes from the valid values
    of one column of one group, given in frame order ([None] when that
    result is NaN).  In a cell, [None] stands for NaN. *)
Variable float64 : Type.
Variable mean_of : list float64 -> option float64.

(** One row of the frame after the two coercions: the timestamp in
    nanoseconds since the epoch ([None] is [NaT]) and the cells of the
    columns of [num], in that order ([None] is [NaN]). *)
Record TRow : Type := mkTRow {
  FechaISO : option Z;
  cells : list (option float64)
}.

(** One row of the result: the hour and the means of the columns of [num]. *)
Record HourlyRow : Type := mkHourlyRow {
  FechaHora : Z;
  means : list (option float64)
}.

(** [df.dropna(subset=["FechaISO"])] followed by the new column
    [FechaHora]: the rows that have a timestamp, keyed by their hour. *)
Fixpoint with_FechaHora (df : list TRow) : list (Z * list (option float64)) :=
  match df with
  | [] => []
  | r :: df' =>
      match FechaISO r with
      | Some t => (floor_hour t, cells r) :: with_FechaHora df'
      | None => with_FechaHora df'
      end
  end.

(** [groupby("FechaHora")]: the groups are kept in ascending key order
    (pandas sorts group keys), each with its rows in frame order. *)
Fixpoint add_to_group (k : Z) (r : list (option float64))
    (gs : list (Z * list (list (option float64))))
  : list (Z * list (list (option float64))) :=
  match gs with
  | [] => [(k, [r])]
  | (k', rs) :: gs' =>
      if (k <? k')%Z then (k, [r]) :: gs
      else if (k =? k')%Z then (k', rs ++ [r]) :: gs'
      else (k', rs) :: add_to_group k r gs'
  end.

Definition groupby (rows : list (Z * list (option float64)))
  : list (Z * list (list (option float64))) :=
  fold_left (fun gs kr => add_to_group (fst kr) (snd kr) gs) rows [].

(** The values of column [j] of a group that are not [NaN] ([skipna]). *)
Fixpoint column_values (j : nat) (rs : list (list (option float64))) : list float64 :=
  match rs with
  | [] => []
  | r :: rs' =>
      match nth j r None with
      | Some v => v :: column_values j rs'
      | None => column_values j rs'
      end
  end.

(** [mean] of a column of a group: [NaN] when the group has no valid value
    in that column, else what pandas computes from its valid values. *)
Definition mean (vs : list float64) : option float64 :=
  match vs with
  | [] => None
  | _ :: _ => mean_of vs
  end.

(** [.mean().reset_index()] on the groups. *)
Definition group_means (g : Z * list (list (option float64))) : HourlyRow :=
  {| FechaHora := fst g;
     means := map (fun j => mean (column_values j (snd g))) (seq 0 (List.length num)) |}.

(** Lines 80 to 82 of the module: from the coerced frame to the table. *)
Definition hourly_means (df : list TRow) : list HourlyRow :=
  map group_means (groupby (with_FechaHora df)).

Section Pandas.

(** The two pandas coercions, each applied to a whole column with
    [errors="coerce"]: an entry that cannot be converted comes back as
    [None].  Their parsers are pandas's own and are taken as given. *)
Variable to_numeric : list str -> list (option float64).
Variable to_datetime : list str -> list (option Z).

(** Lines 76 to 79: the frame and the two coercions. *)
Definition build_frame (filas : list (list str)) : list TRow :=
  let numeric := map (fun c => to_numeric (column (col_index c) filas)) num in
  let fecha := to_datetime (column (col_index "FechaISO") filas) in
  map (fun i => {| FechaISO := nth i fecha None;
                   cells := map (fun col => nth i col None) numeric |})
      (seq 0 (List.length filas)).

Definition procesar_buffer (lines : list str) : result (list HourlyRow) :=
  filas <- parse_lines lines ;;
  let filas := keep_records filas in
  if negb (truthy filas) then Raise (ValueError "Sin registros válidos.")
  else Ret (hourly_means (build_frame filas)).

End Pandas.

(** The cells of the rows of the frame whose timestamp lies in hour [h], in
    frame order. *)
Definition keyed (h : Z) (rows : list (Z * list (option float64)))
  : list (list (option float64)) :=
  map snd (filter (fun kr => (fst kr =? h)%Z) rows).

Definition rows_of_hour (h : Z) (df : list TRow) : list (list (option float64)) :=
  keyed h (with_FechaHora df).

(** The row of the table for hour [h]: the mean of each column of [num]
    over the valid values of the rows of that hour. *)
Definition hour_row (h : Z) (df : list TRow) : HourlyRow :=
  {| FechaHora := h;
     means := map (fun j => mean (column_values j (rows_of_hour h df)))
                  (seq 0 (List.length num)) |}.

(** * Properties *)

Lemma str_eqb_eq (a b : str) : str_eqb a b = true <-> a = b.
Proof.
  revert b; induction a as [|x a IH]; intros [|y b]; simpl; split; intro H;
    try reflexivity; try discriminate.
  - apply andb_true_iff in H as [Hx Hab].
    apply N.eqb_eq in Hx. apply IH in Hab. congruence.
  - injection H as -> ->. rewrite N.eqb_refl. now apply IH.
Qed.

Section IndexFacts.
Context {A : Type}.
Implicit Types l : list A.

Lemma norm_index_nonneg l (k : nat) :
  (k < List.length l)%nat -> norm_index l (Z.of_nat k) = Some k.
Proof.
  intro H. unfold norm_index.
  replace (Z.of_nat k <? 0)%Z with false by (symmetry; apply Z.ltb_ge; lia).
  replace (0 <=? Z.of_nat k)%Z with true by (symmetry; apply Z.leb_le; lia).
  replace (Z.of_nat k <? Z.of_nat (List.length l))%Z with true
    by (symmetry; apply Z.ltb_lt; lia).
  simpl. now rewrite Nat2Z.id.
Qed.

Lemma norm_index_from_end l (k : nat) :
  (0 < k <= List.length l)%nat ->
  norm_index l (- Z.of_nat k) = Some (List.length l - k)%nat.
Proof.
  intro H. unfold norm_index.
  replace (- Z.of_nat k <? 0)%Z with true by (symmetry; apply Z.ltb_lt; lia).
  replace (0 <=? - Z.of_nat k + Z.of_nat (List.length l))%Z with true
    by (symmetry; apply Z.leb_le; lia).
  replace (- Z.of_nat k + Z.of_nat (List.length l) <? Z.of_nat (List.length l))%Z
    with true by (symmetry; apply Z.ltb_lt; lia).
  simpl. f_equal. lia.
Qed.

Lemma remove_at_last l :
  remove_at (List.length l - 1) l = removelast l.
Proof.
  induction l as [|x l IH]; [reflexivity|].
  destruct l as [|y l]; [reflexivity|].
  replace (List.length (x :: y :: l) - 1)%nat with (S (List.length (y :: l) - 1))
    by (simpl; lia).
  cbn [remove_at]. now rewrite IH.
Qed.

Lemma nth_error_last l d :
  l <> [] -> nth_error l (List.length l - 1) = Some (last l d).
Proof.
  induction l as [|x l IH]; [congruence|]. intros _.
  destruct l as [|y l]; [reflexivity|].
  replace (List.length (x :: y :: l) - 1)%nat with (S (List.length (y :: l) - 1))
    by (simpl; lia).
  cbn [nth_error]. rewrite IH by discriminate. reflexivity.
Qed.

Lemma getitem_head x l : getitem (x :: l) 0 = Ret x.
Proof.
  unfold getitem. change 0%Z with (Z.of_nat 0).
  rewrite (norm_index_nonneg (x :: l) 0) by (simpl; lia).
  reflexivity.
Qed.

Lemma pop_head x l : pop (x :: l) 0 = Ret l.
Proof.
  unfold pop. change 0%Z with (Z.of_nat 0).
  rewrite (norm_index_nonneg (x :: l) 0) by (simpl; lia).
  reflexivity.
Qed.

Lemma getitem_last l d : l <> [] -> getitem l (-1) = Ret (last l d).
Proof.
  intro H. unfold getitem. change (-1)%Z with (- Z.of_nat 1)%Z.
  rewrite (norm_index_from_end l 1) by (destruct l; simpl; [congruence|lia]).
  now rewrite (nth_error_last l d H).
Qed.

Lemma pop_last l : l <> [] -> pop l (-1) = Ret (removelast l).
Proof.
  intro H. unfold pop. change (-1)%Z with (- Z.of_nat 1)%Z.
  rewrite (norm_index_from_end l 1) by (destruct l; simpl; [congruence|lia]).
  now rewrite remove_at_last.
Qed.
End IndexFacts.

(** [drop_query] and [drop_crc] never raise: each removes at most one token. *)
Lemma drop_query_ret (parts : list str) :
  drop_query parts = Ret (without_query parts).
Proof.
  destruct parts as [|p0 tl]; [reflexivity|].
  unfold drop_query, without_query. cbn [truthy]. rewrite getitem_head. cbn [bind].
  destruct (str_eqb p0 Q_marker); [apply pop_head | reflexivity].
Qed.

Lemma drop_crc_ret (parts : list str) :
  drop_crc parts = Ret (without_crc parts).
Proof.
  destruct parts as [|p0 tl]; [reflexivity|].
  unfold drop_crc, without_crc. cbn [truthy andb].
  rewrite (getitem_last (p0 :: tl) []) by discriminate. cbn [bind].
  destruct (is_crc (last (p0 :: tl) [])); [|reflexivity].
  apply pop_last. discriminate.
Qed.

Lemma length_13_inv {A} (l : list A) :
  List.length l = 13%nat ->
  exists a0 a1 a2 a3 a4 a5 a6 a7 a8 a9 a10 a11 a12,
    l = [a0; a1; a2; a3; a4; a5; a6; a7; a8; a9; a10; a11; a12].
Proof.
  intro H.
  do 13 (destruct l as [|? l]; [discriminate H|]).
  destruct l; [|discriminate H].
  repeat eexists.
Qed.

Lemma finish_13 (parts : list str) :
  List.length parts = 13%nat ->
  finish parts = Ret (Some (remove_at 11 (sign_normalised parts))).
Proof.
  intro H. destruct (length_13_inv parts H)
    as (a0&a1&a2&a3&a4&a5&a6&a7&a8&a9&a10&a11&a12&->).
  reflexivity.
Qed.

Lemma finish_other (parts : list str) :
  List.length parts <> 13%nat -> finish parts = Ret None.
Proof.
  intro H. unfold finish.
  destruct (Nat.eqb_spec (List.length parts) 13); [contradiction|reflexivity].
Qed.

(** ** The text after the first comma *)

Lemma split1_cases (sep : char) (s : str) :
  (~ In sep s /\ split1 sep s = [s]) \/
  (exists pre post, s = pre ++ sep :: post /\ ~ In sep pre /\ split1 sep s = [pre; post]).
Proof.
  induction s as [|c s IH]; [left; split; [intros []|reflexivity]|].
  cbn [split1]. destruct (N.eqb_spec c sep) as [->|Hc].
  - right. exists [], s. repeat split. intros [].
  - destruct IH as [[Hn ->]|(pre & post & -> & Hn & ->)].
    + left. split; [|reflexivity]. intros [?|?]; [congruence|contradiction].
    + right. exists (c :: pre), post. repeat split.
      intros [?|?]; [congruence|contradiction].
Qed.

Lemma getitem_split1_raises (line : str) :
  ~ In comma line -> getitem (split1 comma line) 1 = Raise IndexError.
Proof.
  intro H. destruct (split1_cases comma line) as [[_ ->]|(pre & post & -> & _ & _)].
  - reflexivity.
  - exfalso. apply H, in_or_app. right. now left.
Qed.

Lemma getitem_split1_ret (pre rest0 : str) :
  ~ In comma pre -> getitem (split1 comma (pre ++ comma :: rest0)) 1 = Ret rest0.
Proof.
  intro H.
  destruct (split1_cases comma (pre ++ comma :: rest0))
    as [[Hn _]|(pre' & post & E & Hn & ->)].
  - exfalso. apply Hn, in_or_app. right. now left.
  - enough (pre' = pre /\ post = rest0) as [_ ->] by reflexivity.
    clear -E H Hn. revert pre' E Hn.
    induction pre as [|c pre IH]; intros [|c' pre'] E Hn; simpl in E.
    + injection E as ->. now split.
    + injection E as E1 E2. exfalso. apply Hn. now left.
    + injection E as E1 E2. exfalso. apply H. now left.
    + injection E as -> E. destruct (IH (fun K => H (or_intror K)) pre' E
        (fun K => Hn (or_intror K))) as [-> ->]. now split.
Qed.

Lemma getitem_split1_inv (line rest0 : str) :
  getitem (split1 comma line) 1 = Ret rest0 ->
  exists pre, line = pre ++ comma :: rest0 /\ ~ In comma pre.
Proof.
  intro H. destruct (split1_cases comma line) as [[_ E]|(pre & post & -> & Hn & E)];
    rewrite E in H.
  - discriminate H.
  - exists pre. injection H as ->. now split.
Qed.

(** [parse_line] stage by stage. *)
Lemma parse_line_eq (line : str) :
  parse_line line =
  if negb (re_match preamble line) then Ret None
  else match getitem (split1 comma line) 1 with
       | Ret rest0 => finish (arity_tokens rest0)
       | Raise e => Raise e
       end.
Proof.
  unfold parse_line. destruct (negb (re_match preamble line)); [reflexivity|].
  destruct (getitem (split1 comma line) 1) as [rest0|e]; [|reflexivity].
  cbn [bind]. rewrite drop_query_ret. cbn [bind]. rewrite drop_crc_ret. reflexivity.
Qed.

Lemma parse_line_Some_inv (line : str) (r : list str) :
  parse_line line = Ret (Some r) ->
  re_match preamble line = true /\
  exists rest0, getitem (split1 comma line) 1 = Ret rest0 /\
    List.length (arity_tokens rest0) = 13%nat /\
    r = remove_at 11 (sign_normalised (arity_tokens rest0)).
Proof.
  rewrite parse_line_eq. destruct (re_match preamble line); cbn [negb]; [|discriminate].
  destruct (getitem (split1 comma line) 1) as [rest0|e]; [|discriminate].
  intro H. split; [reflexivity|]. exists rest0. split; [reflexivity|].
  destruct (Nat.eq_dec (List.length (arity_tokens rest0)) 13) as [E|E].
  - rewrite (finish_13 _ E) in H. injection H as <-. now split.
  - rewrite (finish_other _ E) in H. discriminate H.
Qed.

(** C1.  A record that [parse_line] returns has exactly 12 fields: the 13
    tokens that reach the arity test, with a leading [+] stripped from the
    tokens at positions 5 and 6 and the token at index 11 removed, so that
    each label of [cols] names the token written beside it below.  When the
    tokens that reach the arity test are not 13 the line is rejected with
    [None]; nothing shorter or longer than 12 fields is ever returned. *)
Theorem parse_line_record_shape (line : str) :
  (forall r, parse_line line = Ret (Some r) ->
     exists rest0 q parts,
       getitem (split1 comma line) 1 = Ret rest0 /\
       drop_query (tokenize (lstrip rest0)) = Ret q /\
       drop_crc q = Ret parts /\
       List.length parts = 13%nat /\
       r = remove_at 11 (sign_normalised parts) /\
       List.length r = 12%nat /\
       field "DirViento" r = nth 0 parts [] /\
       field "VelViento" r = nth 1 parts [] /\
       field "DirVientoCorr" r = nth 2 parts [] /\
       field "Presion" r = nth 3 parts [] /\
       field "Humedad" r = nth 4 parts [] /\
       field "Temp" r = lstrip_char plus (nth 5 parts []) /\
       field "PuntoRocio" r = lstrip_char plus (nth 6 parts []) /\
       field "PrecipTotal" r = nth 7 parts [] /\
       field "IntensidadPrec" r = nth 8 parts [] /\
       field "Irradiancia" r = nth 9 parts [] /\
       field "FechaISO" r = nth 10 parts [] /\
       field "Flag" r = nth 12 parts []) /\
  (forall rest0 q parts,
     getitem (split1 comma line) 1 = Ret rest0 ->
     drop_query (tokenize (lstrip rest0)) = Ret q ->
     drop_crc q = Ret parts ->
     List.length parts <> 13%nat ->
     parse_line line = Ret None).
Proof.
  split.
  - intros r H. apply parse_line_Some_inv in H as (_ & rest0 & Hr & Hlen & ->).
    exists rest0, (without_query (tokenize (lstrip rest0))), (arity_tokens rest0).
    split; [exact Hr|]. split; [apply drop_query_ret|]. split; [apply drop_crc_ret|].
    split; [exact Hlen|]. split; [reflexivity|].
    destruct (length_13_inv _ Hlen)
      as (a0&a1&a2&a3&a4&a5&a6&a7&a8&a9&a10&a11&a12&->).
    repeat split.
  - intros rest0 q parts Hr Hq Hc Hlen. rewrite parse_line_eq, Hr.
    rewrite drop_query_ret in Hq. injection Hq as <-.
    rewrite drop_crc_ret in Hc. injection Hc as <-.
    fold (arity_tokens rest0) in Hlen.
    rewrite (finish_other _ Hlen). now destruct (negb (re_match preamble line)).
Qed.

Lemma parse_line_raises_iff (line : str) (e : exn) :
  parse_line line = Raise e <->
  re_match preamble line = true /\ ~ In comma line /\ e = IndexError.
Proof.
  rewrite parse_line_eq. split.
  - destruct (re_match preamble line); cbn [negb]; [|discriminate].
    destruct (split1_cases comma line) as [[Hn E]|(pre & post & -> & Hn & E)].
    + rewrite (getitem_split1_raises _ Hn). intro H. injection H as <-. now repeat split.
    + rewrite (getitem_split1_ret _ _ Hn).
      destruct (Nat.eq_dec (List.length (arity_tokens post)) 13) as [L|L].
      * now rewrite (finish_13 _ L).
      * now rewrite (finish_other _ L).
  - intros (-> & Hn & ->). cbn [negb]. now rewrite (getitem_split1_raises _ Hn).
Qed.

(** The frame of 10:15: the [Q] marker and the checksum [7C] are removed,
    the signs of Temp and PuntoRocio are stripped, the token before the flag
    is left out. *)
Example parse_line_frame_1015 :
  parse_line frame_1015 =
  Ret (Some (map of_string
    ["270"; "3.1"; "268"; "1013.2"; "55"; "20"; "12.0"; "0.0"; "0.0"; "412";
     "2024-01-01T10:15:00"; "0"]%string)).
Proof. reflexivity. Qed.

(** Lines that are no frame are rejected. *)
Example parse_line_noise :
  parse_line (of_string "ruido") = Ret None /\
  parse_line [] = Ret None /\
  parse_line (of_string "Mon 01 Jan 2024 10:15:02,Q,270,3.1,7C") = Ret None.
Proof. repeat split. Qed.

(** C2.  The line [Mon 01 Jan 2024 10:00:00] passes the preamble test and
    has no comma: [parse_line] indexes the one-element result of
    [split(",", 1)] at 1 and raises [IndexError] instead of returning. *)
Theorem parse_line_preamble_without_comma :
  re_match preamble (of_string "Mon 01 Jan 2024 10:00:00") = true /\
  parse_line (of_string "Mon 01 Jan 2024 10:00:00") = Raise IndexError.
Proof. split; reflexivity. Qed.

Lemma without_query_split (parts : list str) :
  exists pre, parts = pre ++ without_query parts /\
    (pre = [Q_marker] \/ pre = [] /\ hd [] (without_query parts) <> Q_marker).
Proof.
  destruct parts as [|p0 tl].
  - exists []. split; [reflexivity|]. right. split; [reflexivity|discriminate].
  - cbn [without_query]. destruct (str_eqb p0 Q_marker) eqn:E.
    + apply str_eqb_eq in E as ->. exists [Q_marker]. split; [reflexivity|now left].
    + exists []. split; [reflexivity|]. right. split; [reflexivity|].
      cbn [hd]. intro K. apply str_eqb_eq in K. congruence.
Qed.

Lemma without_crc_split (parts : list str) :
  exists post, parts = without_crc parts ++ post /\
    ((exists c, post = [c] /\ is_crc c = true) \/
     post = [] /\ is_crc (last (without_crc parts) []) = false).
Proof.
  unfold without_crc. destruct parts as [|p0 tl].
  - exists []. split; [reflexivity|]. right. now split.
  - cbn [truthy andb]. destruct (is_crc (last (p0 :: tl) [])) eqn:E.
    + exists [last (p0 :: tl) []]. split.
      * apply app_removelast_last. discriminate.
      * left. now exists (last (p0 :: tl) []).
    + exists []. split; [now rewrite app_nil_r|]. right. now split.
Qed.

Lemma is_crc_iff (s : str) :
  is_crc s = true <->
  (List.length s = 1%nat \/ List.length s = 2%nat) /\ Forall (fun c => ishex c = true) s.
Proof.
  destruct s as [|a [|b [|c s]]]; cbn [is_crc List.length]; split.
  - discriminate.
  - intros [[H|H] _]; discriminate H.
  - intro H. split; [now left|now repeat constructor].
  - intros [_ H]. now inversion H.
  - intro H. apply andb_true_iff in H as [Ha Hb]. split; [now right|now repeat constructor].
  - intros [_ H]. inversion H as [|? ? Ha H']; subst. inversion H' as [|? ? Hb _]; subst.
    now rewrite Ha, Hb.
  - discriminate.
  - intros [[H|H] _]; discriminate H.
Qed.

(** C6.  [drop_query] removes the first token exactly when it is [Q], and
    [drop_crc] removes the last token exactly when it is one or two
    hexadecimal digits; neither looks at anything else or raises.  The tokens
    of a line that yields a record are [pre ++ mid ++ post], where [pre] is
    the removed [Q] if there was one and [post] the removed checksum token if
    there was one, and the record is built from the 13 tokens of [mid]
    alone. *)
Theorem markers_removed_before_record :
  (forall parts, drop_query parts = Ret (without_query parts)) /\
  (forall tl, without_query (Q_marker :: tl) = tl) /\
  (forall p0 tl, p0 <> Q_marker -> without_query (p0 :: tl) = p0 :: tl) /\
  (forall parts, drop_crc parts = Ret (without_crc parts)) /\
  (forall init c, is_crc c = true -> without_crc (init ++ [c]) = init) /\
  (forall init c, is_crc c = false -> without_crc (init ++ [c]) = init ++ [c]) /\
  (forall line r, parse_line line = Ret (Some r) ->
     exists rest0 pre mid post,
       getitem (split1 comma line) 1 = Ret rest0 /\
       tokenize (lstrip rest0) = pre ++ mid ++ post /\
       (pre = [Q_marker] \/ pre = [] /\ hd [] mid <> Q_marker) /\
       ((exists c, post = [c] /\ is_crc c = true) \/
        post = [] /\ is_crc (last mid []) = false) /\
       List.length mid = 13%nat /\
       r = remove_at 11 (sign_normalised mid)).
Proof.
  split; [exact drop_query_ret|].
  split; [reflexivity|].
  split.
  { intros p0 tl H. cbn [without_query].
    destruct (str_eqb p0 Q_marker) eqn:E; [|reflexivity].
    apply str_eqb_eq in E. contradiction. }
  split; [exact drop_crc_ret|].
  assert (Hlast : forall (init : list str) c, last (init ++ [c]) [] = c)
    by (intros; apply last_last).
  assert (Htruthy : forall (init : list str) c, truthy (init ++ [c]) = true)
    by (intros [|? ?] ?; reflexivity).
  split.
  { intros init c H. unfold without_crc.
    rewrite Htruthy, Hlast, H. apply removelast_last. }
  split.
  { intros init c H. unfold without_crc. now rewrite Htruthy, Hlast, H. }
  intros line r H. apply parse_line_Some_inv in H as (_ & rest0 & Hr & Hlen & ->).
  unfold arity_tokens in *.
  destruct (without_query_split (tokenize (lstrip rest0))) as (pre & Epre & Hpre).
  destruct (without_crc_split (without_query (tokenize (lstrip rest0))))
    as (post & Epost & Hpost).
  set (mid := without_crc (without_query (tokenize (lstrip rest0)))) in *.
  exists rest0, pre, mid, post. split; [exact Hr|].
  split; [rewrite Epre at 1; now rewrite Epost at 1|].
  split.
  { destruct Hpre as [->|[-> Hq]]; [now left|right]. split; [reflexivity|].
    rewrite Epost in Hq. destruct mid; [discriminate Hlen|exact Hq]. }
  repeat split; assumption.
Qed.

(** C10.  A line that passes the preamble test and whose tokens, once the
    [Q] marker is removed, are exactly 13 with the last one shaped like one or
    two hexadecimal digits is rejected: that last token is removed as the
    checksum, 12 tokens remain, and the arity test fails. *)
Theorem hex_shaped_last_field_rejected (line rest0 : str) (parts : list str) :
  re_match preamble line = true ->
  getitem (split1 comma line) 1 = Ret rest0 ->
  drop_query (tokenize (lstrip rest0)) = Ret parts ->
  List.length parts = 13%nat ->
  is_crc (last parts []) = true ->
  drop_crc parts = Ret (removelast parts) /\
  List.length (removelast parts) = 12%nat /\
  parse_line line = Ret None.
Proof.
  intros Hgate Hr Hq Hlen Hcrc.
  rewrite drop_query_ret in Hq. injection Hq as Hq.
  assert (Hne : truthy parts = true) by (destruct parts; [discriminate Hlen|reflexivity]).
  assert (Hw : without_crc parts = removelast parts)
    by (unfold without_crc; now rewrite Hne, Hcrc).
  assert (H12 : List.length (removelast parts) = 12%nat).
  { destruct (length_13_inv _ Hlen)
      as (a0&a1&a2&a3&a4&a5&a6&a7&a8&a9&a10&a11&a12&->). reflexivity. }
  split; [now rewrite drop_crc_ret, Hw|]. split; [exact H12|].
  rewrite parse_line_eq, Hgate, Hr. cbn [negb]. unfold arity_tokens.
  rewrite Hq, Hw. apply finish_other. rewrite H12. discriminate.
Qed.

Lemma hex_shaped_last_field_rejected_witness :
  parse_line (of_string
    "Mon 01 Jan 2024 10:00:00,Q,270,3.1,268,1013.2,55,+21.5,+12.0,0.0,0.0,412,2024-01-01T10:15:00,0,1")
  = Ret None.
Proof.
  refine (proj2 (proj2 (hex_shaped_last_field_rejected _
    (of_string "Q,270,3.1,268,1013.2,55,+21.5,+12.0,0.0,0.0,412,2024-01-01T10:15:00,0,1")
    (map of_string ["270"; "3.1"; "268"; "1013.2"; "55"; "+21.5"; "+12.0"; "0.0";
                    "0.0"; "412"; "2024-01-01T10:15:00"; "0"; "1"]%string)
    _ _ _ _ _))); reflexivity.
Defined.

(** ** Stripping and splitting *)

Lemma lstrip_split (s : str) :
  exists ws, s = ws ++ lstrip s /\ Forall (fun c => isspace c = true) ws.
Proof.
  induction s as [|c s (ws & E & F)]; [now exists []|].
  cbn [lstrip]. destruct (isspace c) eqn:Hc.
  - exists (c :: ws). split; [simpl; congruence|now constructor].
  - now exists [].
Qed.

Lemma lstrip_head (s : str) c t : lstrip s = c :: t -> isspace c = false.
Proof.
  induction s as [|x s IH]; [discriminate|].
  cbn [lstrip]. destruct (isspace x) eqn:Hx; [exact IH|].
  intro E. injection E as <- _. exact Hx.
Qed.

Lemma lstrip_nil_iff (s : str) :
  lstrip s = [] <-> Forall (fun c => isspace c = true) s.
Proof.
  induction s as [|x s IH]; [split; [constructor|reflexivity]|].
  cbn [lstrip]. destruct (isspace x) eqn:Hx.
  - rewrite IH. split; [now constructor|now inversion 1].
  - split; [discriminate|]. inversion 1; congruence.
Qed.

Lemma strip_split (s : str) :
  exists l r, s = l ++ strip s ++ r /\
    Forall (fun c => isspace c = true) l /\ Forall (fun c => isspace c = true) r.
Proof.
  destruct (lstrip_split s) as (l & El & Fl).
  destruct (lstrip_split (rev (lstrip s))) as (w & Ew & Fw).
  exists l, (rev w). split; [|split; [exact Fl|now apply Forall_rev]].
  unfold strip, rstrip. rewrite <- rev_app_distr, <- Ew, rev_involutive. exact El.
Qed.

Lemma strip_head (s : str) c t : strip s = c :: t -> isspace c = false.
Proof.
  intro E. destruct (lstrip_split (rev (lstrip s))) as (w & Ew & _).
  apply (f_equal (@rev char)) in Ew. rewrite rev_involutive, rev_app_distr in Ew.
  fold (rstrip (lstrip s)) in Ew. fold (strip s) in Ew. rewrite E in Ew.
  exact (lstrip_head s c _ Ew).
Qed.

Lemma strip_last (s : str) c t : strip s = t ++ [c] -> isspace c = false.
Proof.
  unfold strip, rstrip. intro E.
  apply (f_equal (@rev char)) in E. rewrite rev_involutive, rev_app_distr in E.
  exact (lstrip_head _ _ _ E).
Qed.

Lemma strip_nil_iff (s : str) :
  strip s = [] <-> Forall (fun c => isspace c = true) s.
Proof.
  split.
  - intro E. destruct (strip_split s) as (l & r & Es & Fl & Fr).
    rewrite E in Es. rewrite Es. apply Forall_app. now split.
  - intro F. apply lstrip_nil_iff in F. unfold strip. now rewrite F.
Qed.

Lemma remove_char_In (c x : char) (s : str) :
  In x (remove_char c s) <-> In x s /\ x <> c.
Proof.
  unfold remove_char. rewrite filter_In, negb_true_iff, N.eqb_neq. tauto.
Qed.

Lemma clean_split (p : str) :
  exists l r, remove_char ETX (remove_char STX p) = l ++ clean p ++ r /\
    Forall (fun c => isspace c = true) l /\ Forall (fun c => isspace c = true) r.
Proof. apply strip_split. Qed.

Lemma clean_In (p : str) (x : char) :
  In x (clean p) -> In x p /\ x <> STX /\ x <> ETX.
Proof.
  intro H. destruct (clean_split p) as (l & r & E & _).
  assert (K : In x (remove_char ETX (remove_char STX p))).
  { rewrite E. apply in_or_app. right. apply in_or_app. now left. }
  apply remove_char_In in K as [K ?]. apply remove_char_In in K as [? ?]. tauto.
Qed.

Lemma clean_nil_iff (p : str) : clean p = [] <-> Forall is_filler p.
Proof.
  unfold clean. rewrite strip_nil_iff, !Forall_forall. split.
  - intros H x Hx. unfold is_filler.
    destruct (N.eq_dec x STX) as [|H2]; [now left|].
    destruct (N.eq_dec x ETX) as [|H3]; [now right; left|].
    right; right. apply H. apply remove_char_In. split; [|exact H3].
    apply remove_char_In. now split.
  - intros H x Hx. apply remove_char_In in Hx as [Hx H3].
    apply remove_char_In in Hx as [Hx H2].
    destruct (H x Hx) as [?|[?|?]]; [contradiction|contradiction|assumption].
Qed.

Lemma split_not_nil (sep : char) (s : str) : split sep s <> [].
Proof.
  destruct s as [|c s]; [discriminate|]. cbn [split].
  destruct (c =? sep); [discriminate|]. now destruct (split sep s).
Qed.

Lemma join_split (sep : char) (s : str) : join sep (split sep s) = s.
Proof.
  induction s as [|c s IH]; [reflexivity|]. cbn [split].
  pose proof (split_not_nil sep s) as Hne.
  destruct (N.eqb_spec c sep) as [->|Hc].
  - destruct (split sep s) as [|w ws]; [congruence|].
    cbn [join app]. cbn [join] in IH. now rewrite IH.
  - destruct (split sep s) as [|w ws]; [congruence|].
    destruct ws as [|w' ws]; cbn [join] in *; simpl; now rewrite IH.
Qed.

Lemma split_pieces (sep : char) (s : str) :
  Forall (fun p => ~ In sep p) (split sep s).
Proof.
  induction s as [|c s IH]; [repeat constructor; intros []|]. cbn [split].
  destruct (N.eqb_spec c sep) as [->|Hc].
  - constructor; [intros []|exact IH].
  - destruct (split sep s) as [|w ws]; [repeat constructor; intros [?|[]]; congruence|].
    inversion IH as [|? ? Hw Hws]; subst. constructor; [|exact Hws].
    intros [?|?]; [congruence|contradiction].
Qed.

Lemma tokenize_In (rest t : str) :
  In t (tokenize rest) <->
  exists p, In p (split comma rest) /\ p <> [] /\ t = clean p.
Proof.
  unfold tokenize. rewrite in_map_iff. split.
  - intros (p & <- & Hp). apply filter_In in Hp as [Hp Hne]. exists p.
    repeat split; [exact Hp|]. intros ->. discriminate Hne.
  - intros (p & Hp & Hne & ->). exists p. split; [reflexivity|].
    apply filter_In. split; [exact Hp|].
    destruct (str_eqb p []) eqn:E; [|reflexivity].
    apply str_eqb_eq in E. contradiction.
Qed.

(** C5, as the code has it.  The text after the first comma, without its
    leading white space, is cut at every comma; the pieces that are the empty
    string as cut are dropped, and each remaining piece is cleaned: every STX
    and ETX is removed and the white space at both ends is stripped.  The
    test for emptiness comes before the cleaning, so a token is empty exactly
    when its piece was non-empty and made only of STX, ETX and white space. *)
Theorem tokenize_filters_before_cleaning (line rest0 : str) :
  getitem (split1 comma line) 1 = Ret rest0 ->
  (exists pre, line = pre ++ comma :: rest0 /\ ~ In comma pre) /\
  (exists ws, rest0 = ws ++ lstrip rest0 /\ Forall (fun c => isspace c = true) ws) /\
  (forall c s, lstrip rest0 = c :: s -> isspace c = false) /\
  join comma (split comma (lstrip rest0)) = lstrip rest0 /\
  Forall (fun p => ~ In comma p) (split comma (lstrip rest0)) /\
  (forall t, In t (tokenize (lstrip rest0)) <->
             exists p, In p (split comma (lstrip rest0)) /\ p <> [] /\ t = clean p) /\
  (forall p, exists l r,
      remove_char ETX (remove_char STX p) = l ++ clean p ++ r /\
      Forall (fun c => isspace c = true) l /\ Forall (fun c => isspace c = true) r) /\
  (forall p, ~ In STX (clean p) /\ ~ In ETX (clean p) /\
             (forall c s, clean p = c :: s -> isspace c = false) /\
             (forall c s, clean p = s ++ [c] -> isspace c = false)) /\
  (forall p, clean p = [] <-> Forall is_filler p).
Proof.
  intro H.
  split; [now apply getitem_split1_inv|].
  split; [apply lstrip_split|].
  split; [intros c s; apply lstrip_head|].
  split; [apply join_split|].
  split; [apply split_pieces|].
  split; [apply tokenize_In|].
  split; [apply clean_split|].
  split; [|apply clean_nil_iff].
  intro p. repeat split.
  - intro K. apply clean_In in K. tauto.
  - intro K. apply clean_In in K. tauto.
  - intros c s. apply strip_head.
  - intros c s. apply strip_last.
Qed.

Lemma tokenize_filters_before_cleaning_witness :
  join comma (split comma (lstrip (of_string " 270, ,0"))) = of_string "270, ,0" /\
  tokenize (lstrip (of_string " 270, ,0")) = map of_string ["270"; ""; "0"]%string.
Proof.
  pose proof (tokenize_filters_before_cleaning
                (of_string "Mon 01 Jan 2024 10:00:00, 270, ,0")
                (of_string " 270, ,0") eq_refl) as (_ & _ & _ & Hjoin & _).
  split; [exact Hjoin | reflexivity].
Defined.

(** C5 as stated fails: a piece made of one blank is kept as an empty
    token, and the record carries it as its Humedad field. *)
Lemma blank_piece_stays_as_empty_token :
  re_match preamble (of_string
    "Mon 01 Jan 2024 10:00:00,270,3.1,268,1013.2, ,+21.5,+12.0,0.0,0.0,412,2024-01-01T10:15:00,0,0,7C")
    = true /\
  nth 4 (tokenize (lstrip (of_string
    "270,3.1,268,1013.2, ,+21.5,+12.0,0.0,0.0,412,2024-01-01T10:15:00,0,0,7C"))) (of_string "x")
    = [] /\
  parse_line (of_string
    "Mon 01 Jan 2024 10:00:00,270,3.1,268,1013.2, ,+21.5,+12.0,0.0,0.0,412,2024-01-01T10:15:00,0,0,7C")
  = Ret (Some (map of_string
      ["270"; "3.1"; "268"; "1013.2"; ""; "21.5"; "12.0"; "0.0"; "0.0"; "412";
       "2024-01-01T10:15:00"; "0"]%string)).
Proof. repeat split. Qed.

(** ** Grouping by hour *)

Section Groups.

Local Open Scope Z_scope.

Implicit Types (rows : list (Z * list (option float64))).
Implicit Types (gs : list (Z * list (list (option float64)))).

Lemma keyed_app h rows rows' : keyed h (rows ++ rows') = keyed h rows ++ keyed h rows'.
Proof. unfold keyed. now rewrite filter_app, map_app. Qed.

Lemma keyed_absent h rows : ~ In h (map fst rows) -> keyed h rows = [].
Proof.
  induction rows as [|[k r] rows IH]; [reflexivity|]. simpl. intro H.
  unfold keyed. cbn [filter fst]. destruct (Z.eqb_spec k h) as [->|_].
  - exfalso. apply H. now left.
  - apply IH. intro K. apply H. now right.
Qed.


Lemma add_to_group_keys k r gs h :
  In h (map fst (add_to_group k r gs)) <-> h = k \/ In h (map fst gs).
Proof.
  induction gs as [|[k' rs] gs IH]; cbn [add_to_group].
  - simpl. intuition congruence.
  - destruct (Z.ltb_spec k k').
    + simpl. intuition congruence.
    + destruct (Z.eqb_spec k k') as [->|Hne].
      * simpl. intuition congruence.
      * cbn [map fst In]. rewrite IH. intuition congruence.
Qed.

Lemma add_to_group_sorted k r gs :
  StronglySorted Z.lt (map fst gs) ->
  StronglySorted Z.lt (map fst (add_to_group k r gs)).
Proof.
  induction gs as [|[k' rs] gs IH]; cbn [add_to_group]; intro S.
  - repeat constructor.
  - cbn [map fst] in S. apply StronglySorted_inv in S as [S F].
    destruct (Z.ltb_spec k k') as [Hlt|Hge].
    + cbn [map fst]. constructor; [now constructor|].
      constructor; [exact Hlt|]. eapply Forall_impl; [|exact F]. cbn. lia.
    + destruct (Z.eqb_spec k k') as [->|Hne].
      * cbn [map fst]. now constructor.
      * cbn [map fst]. constructor; [now apply IH|].
        apply Forall_forall. intros h Hh. apply add_to_group_keys in Hh as [->|Hh].
        -- lia.
        -- rewrite Forall_forall in F. now apply F.
Qed.

Lemma add_to_group_In k r gs h rs :
  StronglySorted Z.lt (map fst gs) ->
  In (h, rs) (add_to_group k r gs) ->
  (h <> k /\ In (h, rs) gs) \/
  (h = k /\ ((exists rs0, In (k, rs0) gs /\ rs = rs0 ++ [r]) \/
             (~ In k (map fst gs) /\ rs = [r]))).
Proof.
  induction gs as [|[k' rs'] gs IH]; cbn [add_to_group]; intros S H.
  - destruct H as [H|[]]. injection H as <- <-. right. split; [reflexivity|].
    right. split; [intros []|reflexivity].
  - cbn [map fst] in S. apply StronglySorted_inv in S as [S F].
    rewrite Forall_forall in F.
    destruct (Z.ltb_spec k k') as [Hlt|Hge].
    + destruct H as [H|H].
      * injection H as <- <-. right. split; [reflexivity|]. right.
        split; [|reflexivity]. cbn [map fst]. intros [->|K]; [lia|].
        specialize (F _ K). lia.
      * left. split; [|exact H].
        assert (K : In h (map fst ((k', rs') :: gs)))
          by (apply in_map_iff; now exists (h, rs)).
        cbn [map fst] in K. destruct K as [<-|K]; [lia|]. specialize (F _ K). lia.
    + destruct (Z.eqb_spec k k') as [->|Hne].
      * destruct H as [H|H].
        -- injection H as <- <-. right. split; [reflexivity|]. left.
           exists rs'. split; [now left|reflexivity].
        -- left. split; [|now right].
           assert (K : In h (map fst gs)) by (apply in_map_iff; now exists (h, rs)).
           specialize (F _ K). lia.
      * destruct H as [H|H].
        -- injection H as <- <-. left. split; [congruence|now left].
        -- destruct (IH S H) as [[Hh Hin]|[-> [(rs0 & Hin & ->)|[Hnin ->]]]].
           ++ left. split; [exact Hh|now right].
           ++ right. split; [reflexivity|]. left. exists rs0. split; [now right|reflexivity].
           ++ right. split; [reflexivity|]. right. split; [|reflexivity].
              cbn [map fst]. intros [?|?]; [congruence|contradiction].
Qed.

Lemma groupby_snoc rows kr :
  groupby (rows ++ [kr]) = add_to_group (fst kr) (snd kr) (groupby rows).
Proof. unfold groupby. now rewrite fold_left_app. Qed.

Lemma groupby_sorted rows : StronglySorted Z.lt (map fst (groupby rows)).
Proof.
  induction rows as [|kr rows IH] using rev_ind; [constructor|].
  rewrite groupby_snoc. now apply add_to_group_sorted.
Qed.

Lemma groupby_keys rows h :
  In h (map fst (groupby rows)) <-> In h (map fst rows).
Proof.
  induction rows as [|kr rows IH] using rev_ind; [reflexivity|].
  rewrite groupby_snoc, add_to_group_keys, IH, map_app, in_app_iff. simpl.
  intuition congruence.
Qed.

Lemma groupby_In rows h rs :
  In (h, rs) (groupby rows) -> rs = keyed h rows.
Proof.
  revert h rs. induction rows as [|[k r] rows IH] using rev_ind; intros h rs H.
  - destruct H.
  - rewrite groupby_snoc in H. cbn [fst snd] in H. rewrite keyed_app.
    apply add_to_group_In in H; [|apply groupby_sorted].
    unfold keyed at 2. cbn [filter fst].
    destruct H as [[Hne Hin]|[-> [(rs0 & Hin & ->)|[Hnin ->]]]].
    + destruct (Z.eqb_spec k h) as [|_]; [congruence|].
      cbn [map]. rewrite app_nil_r. now apply IH.
    + rewrite Z.eqb_refl. cbn [map snd]. f_equal. now apply IH.
    + rewrite Z.eqb_refl. cbn [map snd]. rewrite groupby_keys in Hnin.
      now rewrite (keyed_absent _ _ Hnin).
Qed.

(** The groups are the keys in ascending order, each with the rows keyed by it. *)
Lemma groupby_canonical rows :
  groupby rows = map (fun h => (h, keyed h rows)) (map fst (groupby rows)).
Proof.
  assert (H : forall g, In g (groupby rows) -> g = (fst g, keyed (fst g) rows)).
  { intros [h rs] Hg. cbn [fst]. f_equal. now apply groupby_In. }
  induction (groupby rows) as [|g gs IH]; [reflexivity|].
  cbn [map]. rewrite <- IH by (intros; apply H; now right).
  f_equal. apply H. now left.
Qed.

Lemma sorted_same_elements (l1 l2 : list Z) :
  StronglySorted Z.lt l1 -> StronglySorted Z.lt l2 ->
  (forall x, In x l1 <-> In x l2) -> l1 = l2.
Proof.
  revert l2. induction l1 as [|a l1 IH]; intros [|b l2] S1 S2 E.
  - reflexivity.
  - exfalso. apply (E b). now left.
  - exfalso. apply (E a). now left.
  - apply StronglySorted_inv in S1 as [S1 F1]. apply StronglySorted_inv in S2 as [S2 F2].
    rewrite Forall_forall in F1, F2.
    assert (a = b).
    { destruct (proj1 (E a) (or_introl eq_refl)) as [?|Ha]; [congruence|].
      destruct (proj2 (E b) (or_introl eq_refl)) as [?|Hb]; [congruence|].
      specialize (F1 _ Hb). specialize (F2 _ Ha). lia. }
    subst b. f_equal. apply IH; [assumption|assumption|].
    intro x. split; intro Hx.
    + destruct (proj1 (E x) (or_intror Hx)) as [<-|?]; [|assumption].
      specialize (F1 _ Hx). lia.
    + destruct (proj2 (E x) (or_intror Hx)) as [<-|?]; [|assumption].
      specialize (F2 _ Hx). lia.
Qed.

Lemma sorted_NoDup (l : list Z) : StronglySorted Z.lt l -> NoDup l.
Proof.
  induction 1 as [|a l S IH F]; constructor; [|exact IH].
  intro K. rewrite Forall_forall in F. specialize (F _ K). lia.
Qed.

Lemma keyed_Permutation h rows rows' :
  Permutation rows rows' -> Permutation (keyed h rows) (keyed h rows').
Proof.
  unfold keyed. induction 1 as [|x l l' _ IH|x y l|l l' l'' _ IH1 _ IH2].
  - constructor.
  - cbn [filter]. destruct (fst x =? h); [cbn [map]; now constructor|exact IH].
  - cbn [filter]. destruct (fst x =? h), (fst y =? h); cbn [map];
      try reflexivity. apply perm_swap.
  - now transitivity (map snd (filter (fun kr => fst kr =? h) l')).
Qed.

End Groups.

(** ** Means *)

Section Means.

Lemma mean_nil : mean [] = None.
Proof. reflexivity. Qed.

Lemma mean_cons (v : float64) (vs : list float64) : mean (v :: vs) = mean_of (v :: vs).
Proof. reflexivity. Qed.

(** Where pandas's reduction does not depend on the order of the values,
    neither does [mean]. *)
Lemma mean_Permutation :
  (forall vs vs' : list float64, Permutation vs vs' -> mean_of vs = mean_of vs') ->
  forall vs vs' : list float64, Permutation vs vs' -> mean vs = mean vs'.
Proof.
  intros Hm vs vs' P. pose proof (Permutation_length P) as L.
  destruct vs as [|v vs], vs' as [|v' vs']; try discriminate L; [reflexivity|].
  rewrite !mean_cons. now apply Hm.
Qed.


Lemma column_values_Permutation j (rs rs' : list (list (option float64))) :
  Permutation rs rs' -> Permutation (column_values j rs) (column_values j rs').
Proof.
  induction 1 as [|x l l' _ IH|x y l|l l' l'' _ IH1 _ IH2]; cbn [column_values].
  - constructor.
  - destruct (nth j x None); [now constructor|exact IH].
  - destruct (nth j x None), (nth j y None); try reflexivity. apply perm_swap.
  - now transitivity (column_values j l').
Qed.




End Means.

(** ** The table *)

Section Table.

Local Open Scope Z_scope.

Lemma with_FechaHora_app df df' :
  with_FechaHora (df ++ df') = with_FechaHora df ++ with_FechaHora df'.
Proof.
  induction df as [|r df IH]; [reflexivity|]. cbn [app with_FechaHora].
  destruct (FechaISO r); [cbn [app]|]; now rewrite IH.
Qed.

Lemma with_FechaHora_In df h c :
  In (h, c) (with_FechaHora df) <->
  exists r t, In r df /\ FechaISO r = Some t /\ floor_hour t = h /\ cells r = c.
Proof.
  induction df as [|r df IH]; cbn [with_FechaHora].
  - split; [intros []|intros (r & t & [] & _)].
  - destruct (FechaISO r) as [t|] eqn:E.
    + cbn [In]. rewrite IH. split.
      * intros [K|(r' & t' & Hr & Ht)].
        -- injection K as <- <-. exists r, t. repeat split; [now left|exact E].
        -- exists r', t'. split; [now right|exact Ht].
      * intros (r' & t' & [<-|Hr] & Ht & <- & <-).
        -- left. congruence.
        -- right. exists r', t'. repeat split; assumption.
    + rewrite IH. split.
      * intros (r' & t' & Hr & Ht). exists r', t'. split; [now right|exact Ht].
      * intros (r' & t' & [<-|Hr] & Ht & Hh & Hc); [congruence|].
        exists r', t'. repeat split; assumption.
Qed.

Lemma with_FechaHora_Permutation df df' :
  Permutation df df' -> Permutation (with_FechaHora df) (with_FechaHora df').
Proof.
  induction 1 as [|x l l' _ IH|x y l|l l' l'' _ IH1 _ IH2]; cbn [with_FechaHora].
  - constructor.
  - destruct (FechaISO x); [now constructor|exact IH].
  - destruct (FechaISO x), (FechaISO y); try reflexivity. apply perm_swap.
  - now transitivity (with_FechaHora l').
Qed.


(** The table is the row of each hour that occurs, in ascending order. *)
Lemma hourly_means_canonical df :
  hourly_means df =
  map (fun h => hour_row h df) (map fst (groupby (with_FechaHora df))).
Proof.
  unfold hourly_means. rewrite groupby_canonical at 1. rewrite !map_map.
  apply map_ext. reflexivity.
Qed.

Lemma hourly_means_hours df :
  map FechaHora (hourly_means df) = map fst (groupby (with_FechaHora df)).
Proof. unfold hourly_means. rewrite map_map. apply map_ext. reflexivity. Qed.

Lemma hourly_means_In df row :
  In row (hourly_means df) <->
  In (FechaHora row) (map fst (with_FechaHora df)) /\ row = hour_row (FechaHora row) df.
Proof.
  rewrite hourly_means_canonical, in_map_iff. split.
  - intros (h & <- & H). apply groupby_keys in H. now split.
  - intros [H E]. exists (FechaHora row). split; [now symmetry|].
    now apply groupby_keys.
Qed.

Lemma hour_occurs df h :
  In h (map fst (with_FechaHora df)) <->
  exists r t, In r df /\ FechaISO r = Some t /\ floor_hour t = h.
Proof.
  rewrite in_map_iff. split.
  - intros ([h' c] & <- & H). apply with_FechaHora_In in H as (r & t & ? & ? & ? & _).
    now exists r, t.
  - intros (r & t & Hr & Ht & Hh). exists (h, cells r). split; [reflexivity|].
    apply with_FechaHora_In. now exists r, t.
Qed.

Lemma hour_row_mean df h j :
  (j < 10)%nat ->
  nth j (means (hour_row h df)) None = mean (column_values j (rows_of_hour h df)).
Proof.
  intro H. cbn [hour_row means].
  do 10 (destruct j as [|j]; [reflexivity|]). lia.
Qed.

Lemma floor_hour_bounds t :
  floor_hour t mod hour_ns = 0 /\ floor_hour t <= t < floor_hour t + hour_ns.
Proof.
  unfold floor_hour. assert (0 < hour_ns) by reflexivity. split.
  - apply Z_mod_mult.
  - pose proof (Z.mul_div_le t hour_ns H).
    pose proof (Z.mul_succ_div_gt t hour_ns H). lia.
Qed.

Lemma rows_of_hour_Permutation df df' h :
  Permutation df df' -> Permutation (rows_of_hour h df') (rows_of_hour h df).
Proof.
  intro P. unfold rows_of_hour. symmetry.
  now apply keyed_Permutation, with_FechaHora_Permutation.
Qed.

Lemma hours_Permutation df df' :
  Permutation df df' ->
  map FechaHora (hourly_means df') = map FechaHora (hourly_means df).
Proof.
  intro P. apply with_FechaHora_Permutation in P. rewrite !hourly_means_hours.
  apply sorted_same_elements; try apply groupby_sorted.
  intro h. rewrite !groupby_keys. split; apply Permutation_in;
    [symmetry|]; now apply Permutation_map.
Qed.

Lemma hourly_means_Permutation :
  (forall vs vs' : list float64, Permutation vs vs' -> mean_of vs = mean_of vs') ->
  forall df df', Permutation df df' -> hourly_means df' = hourly_means df.
Proof.
  intros Hm df df' P. rewrite !hourly_means_canonical.
  pose proof (hours_Permutation df df' P) as E. rewrite !hourly_means_hours in E.
  rewrite E. apply map_ext. intro h. unfold hour_row. f_equal.
  apply map_ext. intro j. apply (mean_Permutation Hm), column_values_Permutation.
  now apply rows_of_hour_Permutation.
Qed.

End Table.

(** ** Reading the lines *)

Lemma parse_lines_all_ret (lines : list str) :
  (forall l, In l lines -> exists f, parse_line l = Ret f) ->
  exists fs, parse_lines lines = Ret fs /\
             Forall2 (fun l f => parse_line l = Ret f) lines fs.
Proof.
  induction lines as [|l lines IH]; intro H.
  - exists []. split; [reflexivity|constructor].
  - destruct (H l (or_introl eq_refl)) as (f & Hf).
    destruct (IH (fun l' K => H l' (or_intror K))) as (fs & Hfs & F).
    exists (f :: fs). cbn [parse_lines]. rewrite Hf, Hfs. split; [reflexivity|].
    now constructor.
Qed.

Lemma parse_lines_raises (lines : list str) (l : str) :
  In l lines -> parse_line l = Raise IndexError ->
  parse_lines lines = Raise IndexError.
Proof.
  induction lines as [|l' lines IH]; [intros []|]. intros [->|Hin] Hl; cbn [parse_lines].
  - now rewrite Hl.
  - destruct (parse_line l') as [f|e] eqn:E; cbn [bind].
    + now rewrite (IH Hin Hl).
    + apply parse_line_raises_iff in E as (_ & _ & ->). reflexivity.
Qed.

Lemma parse_line_cases (l : str) :
  (exists f, parse_line l = Ret f) \/ parse_line l = Raise IndexError.
Proof.
  destruct (parse_line l) as [f|e] eqn:E; [left; now exists f|right].
  apply parse_line_raises_iff in E as (_ & _ & ->). reflexivity.
Qed.


(** ** Rows of the frame *)

Lemma nth_map_seq {B : Type} (G : nat -> B) (n i : nat) (d : B) :
  (i < n)%nat -> nth i (map G (seq 0 n)) d = G i.
Proof.
  intro H. rewrite (nth_indep _ d (G 0%nat)) by (now rewrite length_map, length_seq).
  rewrite (map_nth G). now rewrite seq_nth.
Qed.

Lemma build_frame_length to_numeric to_datetime filas :
  List.length (build_frame to_numeric to_datetime filas) = List.length filas.
Proof. unfold build_frame. now rewrite length_map, length_seq. Qed.

Lemma build_frame_nth to_numeric to_datetime filas i d :
  (i < List.length filas)%nat ->
  nth i (build_frame to_numeric to_datetime filas) d =
  {| FechaISO := nth i (to_datetime (column (col_index "FechaISO") filas)) None;
     cells := map (fun c => nth i (to_numeric (column (col_index c) filas)) None) num |}.
Proof.
  intro H. unfold build_frame. rewrite nth_map_seq by exact H.
  now rewrite map_map.
Qed.


Lemma split_at_nth {A} (l : list A) (i : nat) (x : A) :
  nth_error l i = Some x ->
  exists l1 l2, l = l1 ++ x :: l2 /\ List.length l1 = i.
Proof.
  revert i. induction l as [|a l IH]; intros [|i] H; try discriminate H.
  - injection H as ->. now exists [], l.
  - destruct (IH i H) as (l1 & l2 & -> & <-). now exists (a :: l1), l2.
Qed.

Lemma hourly_means_without_NaT df1 r df2 :
  FechaISO r = None ->
  with_FechaHora (df1 ++ r :: df2) = with_FechaHora (df1 ++ df2).
Proof.
  intro H. rewrite !with_FechaHora_app. cbn [with_FechaHora]. now rewrite H.
Qed.

(** When every timestamp of the frame is [NaT] the table has no row. *)
Lemma hourly_means_all_NaT df :
  (forall r, In r df -> FechaISO r = None) -> hourly_means df = [].
Proof.
  intro H. unfold hourly_means.
  assert (E : with_FechaHora df = []).
  { induction df as [|r df IH]; [reflexivity|]. cbn [with_FechaHora].
    rewrite (H r (or_introl eq_refl)). apply IH. intros. apply H. now right. }
  now rewrite E.
Qed.

(** ** The hourly table *)

Lemma row_of_record df r t :
  In r df -> FechaISO r = Some t ->
  In (hour_row (floor_hour t) df) (hourly_means df).
Proof.
  intros Hr Ht. apply hourly_means_In. cbn [hour_row FechaHora].
  split; [|reflexivity]. apply hour_occurs. now exists r, t.
Qed.


Lemma parse_lines_cases (lines : list str) :
  (parse_lines lines = Ret (map parsed lines) /\
   forall l, In l lines -> parse_line l = Ret (parsed l)) \/
  (parse_lines lines = Raise IndexError /\
   exists l, In l lines /\ parse_line l = Raise IndexError).
Proof.
  induction lines as [|l lines IH]; [left; split; [reflexivity|intros _ []]|].
  destruct (parse_line_cases l) as [(f & Hf)|Hl].
  - destruct IH as [[E H]|[E (l' & Hin & Hl')]].
    + left. cbn [parse_lines map]. unfold parsed at 1. rewrite Hf, E. split; [reflexivity|].
      intros l' [<-|K]; [unfold parsed; now rewrite Hf|now apply H].
    + right. cbn [parse_lines]. rewrite Hf, E. split; [reflexivity|].
      exists l'. split; [now right|exact Hl'].
  - right. cbn [parse_lines]. rewrite Hl. split; [reflexivity|].
    exists l. split; [now left|exact Hl].
Qed.

(** C4.  The hours of the table are strictly ascending, hence without
    repetition.  Reordering the rows of the coerced frame leaves the hours
    of the table as they are and leaves each hour, column by column, with
    the same valid values up to their order; the means are then taken over
    those values in the new frame order. *)
Theorem hourly_table_sorted_and_same_groups :
  (forall df, StronglySorted Z.lt (map FechaHora (hourly_means df)) /\
              NoDup (map FechaHora (hourly_means df))) /\
  (forall df df', Permutation df df' ->
     map FechaHora (hourly_means df') = map FechaHora (hourly_means df) /\
     List.length (hourly_means df') = List.length (hourly_means df) /\
     (forall h, Permutation (rows_of_hour h df') (rows_of_hour h df)) /\
     (forall h j, Permutation (column_values j (rows_of_hour h df'))
                              (column_values j (rows_of_hour h df))) /\
     (forall row', In row' (hourly_means df') ->
        exists row, In row (hourly_means df) /\ FechaHora row = FechaHora row' /\
          forall j, (j < 10)%nat ->
            nth j (means row) None =
              mean (column_values j (rows_of_hour (FechaHora row') df)) /\
            nth j (means row') None =
              mean (column_values j (rows_of_hour (FechaHora row') df')))).
Proof.
  split.
  { intro df. rewrite hourly_means_hours.
    split; [apply groupby_sorted|apply sorted_NoDup, groupby_sorted]. }
  intros df df' P.
  pose proof (hours_Permutation df df' P) as E.
  split; [exact E|].
  split.
  { apply (f_equal (@List.length Z)) in E. now rewrite !length_map in E. }
  split; [intro h; now apply rows_of_hour_Permutation|].
  split; [intros h j; now apply column_values_Permutation, rows_of_hour_Permutation|].
  intros row' Hrow'.
  assert (Hh : In (FechaHora row') (map FechaHora (hourly_means df')))
    by now apply in_map.
  rewrite E in Hh. apply in_map_iff in Hh as (row & Ek & Hrow).
  exists row. split; [exact Hrow|]. split; [exact Ek|].
  intros j Hj.
  apply hourly_means_In in Hrow as [_ Er]. apply hourly_means_In in Hrow' as [_ Er'].
  assert (Em : nth j (means row) None =
               mean (column_values j (rows_of_hour (FechaHora row') df)))
    by (rewrite Er at 1; rewrite Ek; now apply hour_row_mean).
  assert (Em' : nth j (means row') None =
                mean (column_values j (rows_of_hour (FechaHora row') df')))
    by (rewrite Er' at 1; now apply hour_row_mean).
  split; [exact Em|exact Em'].
Qed.


(** C8.  A record whose FechaISO entry (position 10) comes back [NaT] from
    the timestamp coercion is dropped: the table, and the rows of every hour,
    are those of the frame without that record's row. *)
Theorem record_without_timestamp_is_dropped
    (to_numeric : list str -> list (option float64))
    (to_datetime : list str -> list (option Z))
    (filas : list (list str)) (i : nat) :
  (i < List.length filas)%nat ->
  nth i (to_datetime (column (col_index "FechaISO") filas)) None = None ->
  exists df1 r df2,
    build_frame to_numeric to_datetime filas = df1 ++ r :: df2 /\
    List.length df1 = i /\
    FechaISO r = None /\
    hourly_means (build_frame to_numeric to_datetime filas) = hourly_means (df1 ++ df2) /\
    (forall h, rows_of_hour h (build_frame to_numeric to_datetime filas)
               = rows_of_hour h (df1 ++ df2)).
Proof.
  intros Hi Hnat.
  set (df := build_frame to_numeric to_datetime filas).
  set (r := nth i df {| FechaISO := None; cells := [] |}).
  assert (Er : nth_error df i = Some r).
  { apply nth_error_nth'. unfold df. now rewrite build_frame_length. }
  assert (Et : FechaISO r = None).
  { unfold r, df. rewrite build_frame_nth by exact Hi. exact Hnat. }
  destruct (split_at_nth _ _ _ Er) as (df1 & df2 & E & L).
  exists df1, r, df2. split; [exact E|]. split; [exact L|]. split; [exact Et|].
  pose proof (hourly_means_without_NaT df1 r df2 Et) as W.
  split.
  - rewrite E. unfold hourly_means. now rewrite W.
  - intro h. rewrite E. unfold rows_of_hour. now rewrite W.
Qed.

(** ** The outcomes of procesar_buffer *)

Lemma record_length (l : str) (r : list str) :
  parse_line l = Ret (Some r) -> List.length r = 12%nat.
Proof.
  intro H. apply parse_line_Some_inv in H as (_ & rest0 & _ & Hlen & ->).
  destruct (length_13_inv _ Hlen)
    as (a0&a1&a2&a3&a4&a5&a6&a7&a8&a9&a10&a11&a12&->). reflexivity.
Qed.

Lemma keep_records_In (fs : list (option (list str))) (r : list str) :
  In r (keep_records fs) <-> In (Some r) fs /\ r <> [].
Proof.
  unfold keep_records. rewrite in_flat_map. split.
  - intros ([[|x f]|] & Hf & Hr); try destruct Hr as [<-|[]]; try destruct Hr.
    split; [exact Hf|discriminate].
  - intros [Hf Hne]. exists (Some r). split; [exact Hf|].
    destruct r; [congruence|now left].
Qed.

Lemma procesar_buffer_cases to_numeric to_datetime lines :
  (procesar_buffer to_numeric to_datetime lines = Raise IndexError /\
   exists l, In l lines /\ parse_line l = Raise IndexError) \/
  ((forall l, In l lines -> parse_line l = Ret (parsed l)) /\
   ((keep_records (map parsed lines) = [] /\
     procesar_buffer to_numeric to_datetime lines
       = Raise (ValueError "Sin registros válidos.")) \/
    (keep_records (map parsed lines) <> [] /\
     procesar_buffer to_numeric to_datetime lines
       = Ret (hourly_means
                (build_frame to_numeric to_datetime (keep_records (map parsed lines))))))).
Proof.
  unfold procesar_buffer.
  destruct (parse_lines_cases lines) as [[E H]|[E Hl]]; rewrite E; cbn [bind].
  - right. split; [exact H|].
    destruct (keep_records (map parsed lines)) as [|f fs]; [left|right]; split;
      try reflexivity. discriminate.
  - left. now split.
Qed.


(** * Further properties of parse_line *)

Lemma re_match_length (p : list cls) (s : str) :
  re_match p s = true -> (List.length p <= List.length s)%nat.
Proof.
  revert s. induction p as [|k p IH]; intros s H; [simpl; lia|].
  destruct s as [|c s]; [discriminate H|]. cbn [re_match] in H.
  apply andb_true_iff in H as [_ H]. apply IH in H. simpl. lia.
Qed.

Lemma re_match_firstn (p : list cls) (s : str) :
  re_match p (firstn (List.length p) s) = re_match p s.
Proof.
  revert s. induction p as [|k p IH]; intros s; [reflexivity|].
  destruct s as [|c s]; [reflexivity|]. cbn [List.length firstn re_match].
  now rewrite IH.
Qed.

Lemma re_match_app (p : list cls) (s tail : str) :
  (List.length p <= List.length s)%nat -> re_match p (s ++ tail) = re_match p s.
Proof.
  revert s. induction p as [|k p IH]; intros s H; [reflexivity|].
  destruct s as [|c s]; [simpl in H; lia|]. cbn [app re_match].
  rewrite IH by (simpl in H; lia). reflexivity.
Qed.

(** X1.  [parse_line] raises exactly when the line passes the preamble test and
    has no comma, and the exception is then [IndexError]; a line that fails
    the test gives [None], and a line with a comma always returns. *)
Theorem parse_line_outcomes (line : str) :
  (forall e, parse_line line = Raise e <->
             re_match preamble line = true /\ ~ In comma line /\ e = IndexError) /\
  (re_match preamble line = false -> parse_line line = Ret None) /\
  (In comma line -> exists f, parse_line line = Ret f).
Proof.
  split; [intro e; apply parse_line_raises_iff|]. split.
  - intro H. rewrite parse_line_eq, H. reflexivity.
  - intro H. destruct (parse_line line) as [f|e] eqn:E; [now exists f|].
    apply parse_line_raises_iff in E as (_ & Hn & _). contradiction.
Qed.

(** X2.  A line of fewer than 24 characters, the empty line among them, is
    rejected with [None]. *)
Theorem short_line_is_rejected (line : str) :
  (List.length line < 24)%nat -> parse_line line = Ret None.
Proof.
  intro H. rewrite parse_line_eq.
  destruct (re_match preamble line) eqn:E; [|reflexivity].
  apply re_match_length in E. change (List.length preamble) with 24%nat in E. lia.
Qed.

Lemma short_line_is_rejected_witness :
  parse_line (of_string "Mon 01 Jan 2024 10:00:0") = Ret None.
Proof. apply short_line_is_rejected. vm_compute. lia. Defined.

(** X3.  The preamble test reads the first 24 characters only: it gives the
    same answer on the line and on its first 24 characters, and text added
    after a line of at least 24 characters does not change it.  Nothing has
    to follow the time of day, not even the comma. *)
Theorem preamble_reads_24_characters (line tail : str) :
  re_match preamble (firstn 24 line) = re_match preamble line /\
  ((24 <= List.length line)%nat ->
   re_match preamble (line ++ tail) = re_match preamble line).
Proof.
  split.
  - exact (re_match_firstn preamble line).
  - intro H. now apply re_match_app.
Qed.

(** X4.  [parse_line] returns the record [r] exactly when the line passes the
    preamble test, has a comma, and its tokens without the [Q] marker are
    either 14 with a last one of one or two hexadecimal digits, or 13 with a
    last one that is not; [r] is then built from the first 13 of them. *)
Theorem parse_line_accepts_iff (line : str) (r : list str) :
  parse_line line = Ret (Some r) <->
  re_match preamble line = true /\
  exists rest0,
    getitem (split1 comma line) 1 = Ret rest0 /\
    ((List.length (without_query (tokenize (lstrip rest0))) = 14%nat /\
      is_crc (last (without_query (tokenize (lstrip rest0))) []) = true /\
      r = remove_at 11 (sign_normalised
            (removelast (without_query (tokenize (lstrip rest0)))))) \/
     (List.length (without_query (tokenize (lstrip rest0))) = 13%nat /\
      is_crc (last (without_query (tokenize (lstrip rest0))) []) = false /\
      r = remove_at 11 (sign_normalised (without_query (tokenize (lstrip rest0)))))).
Proof.
  split.
  - intro H. apply parse_line_Some_inv in H as (Hg & rest0 & Hr & Hlen & ->).
    split; [exact Hg|]. exists rest0. split; [exact Hr|].
    unfold arity_tokens in *.
    set (T := without_query (tokenize (lstrip rest0))) in *. clearbody T.
    unfold without_crc in *. destruct T as [|t T'] eqn:ET; [discriminate Hlen|].
    cbn [truthy andb] in *. rewrite <- ET in *.
    destruct (is_crc (last T [])) eqn:Hc.
    + left. split; [|split; [reflexivity|reflexivity]].
      assert (K : T <> []) by (rewrite ET; discriminate).
      pose proof (f_equal (@List.length str) (app_removelast_last [] K)) as L.
      rewrite length_app in L. simpl in L. unfold str, char in *. lia.
    + right. now repeat split.
  - intros (Hg & rest0 & Hr & H). rewrite parse_line_eq, Hg, Hr. cbn [negb].
    unfold arity_tokens, without_crc.
    set (T := without_query (tokenize (lstrip rest0))) in *. clearbody T.
    destruct H as [(Hlen & Hc & ->)|(Hlen & Hc & ->)]; rewrite Hc.
    + assert (Ht : truthy T = true) by (destruct T; [discriminate Hlen|reflexivity]).
      rewrite Ht. cbn [andb]. apply finish_13.
      assert (K : T <> []) by (intro K; rewrite K in Hlen; discriminate Hlen).
      pose proof (f_equal (@List.length str) (app_removelast_last [] K)) as L.
      rewrite length_app in L. simpl in L. unfold str, char in *. lia.
    + rewrite andb_false_r. now apply finish_13.
Qed.

(** ** What the fields of a record can contain *)

Lemma lstrip_char_split (c : char) (t : str) :
  exists k, t = repeat c k ++ lstrip_char c t.
Proof.
  induction t as [|x t (k & E)]; [now exists 0%nat|]. cbn [lstrip_char].
  destruct (N.eqb_spec x c) as [->|_]; [|now exists 0%nat].
  exists (S k). cbn [repeat app]. congruence.
Qed.

Lemma lstrip_char_head (c : char) (t s : str) : lstrip_char c t <> c :: s.
Proof.
  induction t as [|x t IH]; [discriminate|]. cbn [lstrip_char].
  destruct (N.eqb_spec x c) as [->|Hne]; [exact IH|]. congruence.
Qed.

Lemma without_query_incl (parts : list str) t :
  In t (without_query parts) -> In t parts.
Proof.
  destruct parts as [|p0 tl]; [intros []|]. cbn [without_query].
  destruct (str_eqb p0 Q_marker); [now right|auto].
Qed.

Lemma removelast_incl {A} (l : list A) x : In x (removelast l) -> In x l.
Proof.
  induction l as [|a l IH]; [intros []|]. destruct l as [|b l]; [intros []|].
  intros [<-|H]; [now left|right; now apply IH].
Qed.

Lemma without_crc_incl (parts : list str) t :
  In t (without_crc parts) -> In t parts.
Proof.
  unfold without_crc. destruct (truthy parts && is_crc (last parts []));
    [apply removelast_incl|auto].
Qed.

Lemma arity_tokens_cleaned (rest0 t : str) :
  In t (arity_tokens rest0) ->
  exists p, In p (split comma (lstrip rest0)) /\ p <> [] /\ t = clean p.
Proof.
  intro H. apply tokenize_In. now apply without_query_incl, without_crc_incl.
Qed.

Lemma token_shape (rest0 t : str) :
  In t (arity_tokens rest0) ->
  ~ In comma t /\ ~ In STX t /\ ~ In ETX t /\
  (forall c s, t = s ++ [c] -> isspace c = false) /\
  (forall c s, t = c :: s -> isspace c = false).
Proof.
  intro H. apply arity_tokens_cleaned in H as (p & Hp & _ & ->).
  pose proof (split_pieces comma (lstrip rest0)) as F.
  rewrite Forall_forall in F. specialize (F p Hp).
  repeat split.
  - intro K. apply clean_In in K as [K _]. contradiction.
  - intro K. apply clean_In in K. tauto.
  - intro K. apply clean_In in K. tauto.
  - intros c s. apply strip_last.
  - intros c s. apply strip_head.
Qed.

(** X5.  No field of a record contains a comma, STX or ETX, or ends in white
    space; and no field other than Temp and PuntoRocio (positions 5 and 6,
    whose leading [+] signs are stripped after the cleaning) begins with
    white space. *)
Theorem record_fields_are_clean (line : str) (r : list str) :
  parse_line line = Ret (Some r) ->
  Forall (fun f => ~ In comma f /\ ~ In STX f /\ ~ In ETX f /\
                   forall c s, f = s ++ [c] -> isspace c = false) r /\
  (forall i c s, i <> 5%nat -> i <> 6%nat -> nth i r [] = c :: s -> isspace c = false).
Proof.
  intro H. apply parse_line_Some_inv in H as (_ & rest0 & _ & Hlen & ->).
  pose proof (token_shape rest0) as S.
  destruct (length_13_inv _ Hlen)
    as (a0&a1&a2&a3&a4&a5&a6&a7&a8&a9&a10&a11&a12&E).
  rewrite E in *.
  change (remove_at 11 (sign_normalised [a0;a1;a2;a3;a4;a5;a6;a7;a8;a9;a10;a11;a12]))
    with [a0; a1; a2; a3; a4; lstrip_char plus a5; lstrip_char plus a6;
          a7; a8; a9; a10; a12].
  assert (W : forall t, In t [a0;a1;a2;a3;a4;a5;a6;a7;a8;a9;a10;a11;a12] ->
            ~ In comma t /\ ~ In STX t /\ ~ In ETX t /\
            forall c s, t = s ++ [c] -> isspace c = false)
    by (intros t Ht; destruct (S t Ht) as (?&?&?&?&_); auto).
  assert (P : forall t, In t [a0;a1;a2;a3;a4;a5;a6;a7;a8;a9;a10;a11;a12] ->
            ~ In comma (lstrip_char plus t) /\ ~ In STX (lstrip_char plus t) /\
            ~ In ETX (lstrip_char plus t) /\
            forall c s, lstrip_char plus t = s ++ [c] -> isspace c = false).
  { intros t Ht. destruct (W t Ht) as (H1 & H2 & H3 & H4).
    destruct (lstrip_char_split plus t) as (k & Ek).
    assert (I : forall x, In x (lstrip_char plus t) -> In x t)
      by (intros x Hx; rewrite Ek; apply in_or_app; now right).
    repeat split; try (intro K; apply I in K; contradiction).
    intros c s Es. apply (H4 c (repeat plus k ++ s)).
    rewrite Ek at 1. rewrite Es. now rewrite app_assoc. }
  split.
  - repeat (apply Forall_cons; [cbv beta; first [apply W; simpl; tauto | apply P; simpl; tauto]|]).
    apply Forall_nil.
  - intros i c s H5 H6 Hi.
    do 12 (destruct i as [|i];
      [first [congruence | eapply (S _); [|exact Hi]; simpl; tauto]|]).
    destruct i; discriminate Hi.
Qed.

Lemma record_fields_are_clean_witness :
  Forall (fun f => ~ In comma f /\ ~ In STX f /\ ~ In ETX f /\
                   forall c s, f = s ++ [c] -> isspace c = false)
    (map of_string
      ["270"; "3.1"; "268"; "1013.2"; "55"; "20"; "12.0"; "0.0"; "0.0"; "412";
       "2024-01-01T10:15:00"; "0"]%string).
Proof.
  exact (proj1 (record_fields_are_clean frame_1015 _ eq_refl)).
Defined.

(** X6.  The Temp and PuntoRocio fields of a record are the tokens at positions
    5 and 6 with all their leading [+] signs removed, and nothing else: the
    field never begins with [+], and a token that begins with anything else,
    a [-] for instance, is kept as it is. *)
Theorem signs_are_stripped (line : str) (r : list str) :
  parse_line line = Ret (Some r) ->
  exists rest0 k5 k6,
    getitem (split1 comma line) 1 = Ret rest0 /\
    nth 5 (arity_tokens rest0) [] = repeat plus k5 ++ field "Temp" r /\
    nth 6 (arity_tokens rest0) [] = repeat plus k6 ++ field "PuntoRocio" r /\
    (forall s, field "Temp" r <> plus :: s) /\
    (forall s, field "PuntoRocio" r <> plus :: s).
Proof.
  intro H. apply parse_line_Some_inv in H as (_ & rest0 & Hr & Hlen & ->).
  destruct (length_13_inv _ Hlen)
    as (a0&a1&a2&a3&a4&a5&a6&a7&a8&a9&a10&a11&a12&E).
  rewrite E. destruct (lstrip_char_split plus a5) as (k5 & E5).
  destruct (lstrip_char_split plus a6) as (k6 & E6).
  exists rest0, k5, k6. split; [exact Hr|].
  change (field "Temp" (remove_at 11 (sign_normalised
            [a0;a1;a2;a3;a4;a5;a6;a7;a8;a9;a10;a11;a12]))) with (lstrip_char plus a5).
  change (field "PuntoRocio" (remove_at 11 (sign_normalised
            [a0;a1;a2;a3;a4;a5;a6;a7;a8;a9;a10;a11;a12]))) with (lstrip_char plus a6).
  rewrite E. cbn [nth]. split; [exact E5|]. split; [exact E6|].
  split; intro s; apply lstrip_char_head.
Qed.

Lemma signs_are_stripped_witness :
  exists rest0 k5 k6,
    getitem (split1 comma frame_1045) 1 = Ret rest0 /\
    nth 5 (arity_tokens rest0) [] = repeat plus k5 ++ of_string "22" /\
    nth 6 (arity_tokens rest0) [] = repeat plus k6 ++ of_string "-12.5" /\
    (forall s, of_string "22" <> plus :: s) /\
    (forall s, of_string "-12.5" <> plus :: s).
Proof.
  exact (signs_are_stripped frame_1045
    (map of_string
      ["270"; "3.1"; "268"; "1013.2"; "xx"; "22"; "-12.5"; "0.0"; "0.0"; "412";
       "2024-01-01T10:45:00"; "0"]%string) eq_refl).
Defined.

(** ** White space after the line *)

Lemma in_ranges_disjoint (tbl tbl' : list (char * char)) (c : char) :
  forallb (fun r => forallb (fun r' => (snd r <? fst r') || (snd r' <? fst r)) tbl') tbl
    = true ->
  in_ranges tbl c = true -> in_ranges tbl' c = false.
Proof.
  intros D H. unfold in_ranges in *.
  apply existsb_exists in H as (r & Hr & Hc).
  destruct (existsb (fun r' => in_range c (fst r') (snd r')) tbl') eqn:E; [|reflexivity].
  apply existsb_exists in E as (r' & Hr' & Hc').
  rewrite forallb_forall in D. specialize (D r Hr).
  rewrite forallb_forall in D. specialize (D r' Hr').
  unfold in_range in *. apply andb_true_iff in Hc as [H1 H2], Hc' as [H3 H4].
  apply N.leb_le in H1, H2, H3, H4.
  apply orb_true_iff in D as [D|D]; apply N.ltb_lt in D; unfold char in *; lia.
Qed.

Lemma isspace_not_decimal (c : char) : isspace c = true -> isdecimal c = false.
Proof. apply in_ranges_disjoint. vm_compute. reflexivity. Qed.

Lemma isspace_not_mark (c : char) :
  isspace c = true -> c <> comma /\ c <> STX /\ c <> ETX.
Proof.
  intro H. repeat split; intros ->; discriminate H.
Qed.

Lemma re_match_trailing (p : list cls) (k : cls) (s ws : str) :
  Forall (fun c => cls_match k c = false) ws ->
  re_match (p ++ [k]) (s ++ ws) = re_match (p ++ [k]) s.
Proof.
  intro F. revert p. induction s as [|c s IH]; intro p.
  - cbn [app]. replace (re_match (p ++ [k]) []) with false by (now destruct p).
    revert p. induction F as [|c ws Hc _ IHw]; intro p; [now destruct p|].
    destruct p as [|k' p]; cbn [app re_match].
    + now rewrite Hc.
    + rewrite IHw. apply andb_false_r.
  - destruct p as [|k' p]; cbn [app re_match]; [reflexivity|]. now rewrite IH.
Qed.

Lemma preamble_trailing_space (line ws : str) :
  Forall (fun c => isspace c = true) ws ->
  re_match preamble (line ++ ws) = re_match preamble line.
Proof.
  intro F. change preamble with (removelast preamble ++ [Digit]).
  apply re_match_trailing. eapply Forall_impl; [|exact F].
  intros c Hc. now apply isspace_not_decimal.
Qed.

Lemma lstrip_space_app (w z : str) :
  Forall (fun c => isspace c = true) w -> lstrip (w ++ z) = lstrip z.
Proof. induction 1 as [|c w Hc _ IH]; [reflexivity|]. cbn [app lstrip]. now rewrite Hc. Qed.

Lemma lstrip_app_nil (s ws : str) :
  Forall (fun c => isspace c = true) ws -> lstrip s = [] -> lstrip (s ++ ws) = [].
Proof.
  intros F H. apply lstrip_nil_iff. apply Forall_app. split; [|exact F].
  now apply lstrip_nil_iff.
Qed.

Lemma lstrip_app_cons (s ws : str) :
  lstrip s <> [] -> lstrip (s ++ ws) = lstrip s ++ ws.
Proof.
  induction s as [|c s IH]; [intro H; now contradiction H|]. cbn [app lstrip].
  destruct (isspace c); [exact IH|reflexivity].
Qed.

Lemma rstrip_app_space (y ws : str) :
  Forall (fun c => isspace c = true) ws -> rstrip (y ++ ws) = rstrip y.
Proof.
  intro F. unfold rstrip. rewrite rev_app_distr.
  rewrite lstrip_space_app by (now apply Forall_rev). reflexivity.
Qed.

Lemma strip_app_space (x ws : str) :
  Forall (fun c => isspace c = true) ws -> strip (x ++ ws) = strip x.
Proof.
  intro F. unfold strip. destruct (lstrip x) as [|c t] eqn:E.
  - now rewrite (lstrip_app_nil x ws F E).
  - rewrite lstrip_app_cons by (rewrite E; discriminate).
    rewrite E. now apply rstrip_app_space.
Qed.

Lemma remove_char_space (c : char) (ws : str) :
  isspace c = false -> Forall (fun x => isspace x = true) ws -> remove_char c ws = ws.
Proof.
  intros Hc. induction 1 as [|x ws Hx _ IH]; [reflexivity|].
  unfold remove_char in *. cbn [filter].
  destruct (N.eqb_spec x c) as [->|_]; [congruence|]. cbn [negb]. now rewrite IH.
Qed.

Lemma remove_char_app (c : char) (a b : str) :
  remove_char c (a ++ b) = remove_char c a ++ remove_char c b.
Proof. apply filter_app. Qed.

Lemma clean_app_space (p ws : str) :
  Forall (fun c => isspace c = true) ws -> clean (p ++ ws) = clean p.
Proof.
  intro F. unfold clean. rewrite !remove_char_app.
  rewrite (remove_char_space STX ws eq_refl F), (remove_char_space ETX ws eq_refl F).
  now apply strip_app_space.
Qed.

Lemma clean_space (ws : str) :
  Forall (fun c => isspace c = true) ws -> clean ws = [].
Proof.
  intro F. apply clean_nil_iff. eapply Forall_impl; [|exact F].
  intros c Hc. right. now right.
Qed.

Lemma split_without_sep (sep : char) (t : str) :
  ~ In sep t -> split sep t = [t].
Proof.
  induction t as [|x t IH]; intro Ht; [reflexivity|]. cbn [split].
  destruct (N.eqb_spec x sep) as [->|_]; [exfalso; apply Ht; now left|].
  rewrite IH by (intro K; apply Ht; now right). reflexivity.
Qed.

Lemma split_app_tail (sep : char) (s t : str) :
  ~ In sep t ->
  split sep (s ++ t) = removelast (split sep s) ++ [last (split sep s) [] ++ t].
Proof.
  intro Ht. induction s as [|c s IH].
  - cbn [app split removelast last]. now apply split_without_sep.
  - cbn [app split]. pose proof (split_not_nil sep s) as Hne.
    destruct (N.eqb_spec c sep) as [->|_].
    + rewrite IH. destruct (split sep s) as [|w ws]; [congruence|]. reflexivity.
    + rewrite IH. destruct (split sep s) as [|w ws]; [congruence|].
      destruct ws as [|w' ws]; reflexivity.
Qed.

Lemma last_split_nil (sep : char) (s : str) :
  last (split sep s) [] = [] -> s = [] \/ exists s', s = s' ++ [sep].
Proof.
  induction s as [|c s IH]; [now left|]. intro H. right. cbn [split] in H.
  pose proof (split_not_nil sep s) as Hne.
  destruct (N.eqb_spec c sep) as [->|_].
  - destruct (split sep s) as [|w ws] eqn:E; [congruence|].
    change (last (w :: ws) [] = []) in H.
    destruct (IH H) as [->|(s' & ->)]; [now exists []|now exists (sep :: s')].
  - destruct (split sep s) as [|w ws] eqn:E; [congruence|].
    destruct ws as [|w' ws]; [discriminate H|].
    change (last (w :: w' :: ws) [] = []) in H.
    destruct (IH H) as [->|(s' & ->)]; [discriminate E|now exists (c :: s')].
Qed.

Lemma split_ends_with_sep (sep : char) (s : str) :
  split sep (s ++ [sep]) = split sep s ++ [[]].
Proof.
  induction s as [|c s IH]; cbn [app split].
  - now rewrite N.eqb_refl.
  - rewrite IH. pose proof (split_not_nil sep s) as Hne.
    destruct (c =? sep); [reflexivity|].
    destruct (split sep s) as [|w ws]; [congruence|reflexivity].
Qed.

Lemma tokenize_app_space (s ws : str) :
  Forall (fun c => isspace c = true) ws ->
  last (split comma s) [] <> [] ->
  tokenize (s ++ ws) = tokenize s.
Proof.
  intros F Hl. unfold tokenize.
  assert (Hc : ~ In comma ws).
  { intro K. rewrite Forall_forall in F. specialize (F _ K). discriminate F. }
  rewrite (split_app_tail comma s ws Hc).
  rewrite (app_removelast_last [] (split_not_nil comma s)) at 3.
  rewrite !filter_app, !map_app. f_equal. cbn [filter].
  destruct (last (split comma s) []) as [|x l] eqn:E; [congruence|].
  unfold str in *. rewrite ?E.
  cbn [app str_eqb negb map]. f_equal. now apply (clean_app_space (x :: l)).
Qed.

(** X7.  White space after a line that does not end with a comma, such as the
    line terminator that [readlines] keeps, does not change what [parse_line]
    gives, be it a record, [None] or the exception. *)
Theorem trailing_space_is_ignored (line ws : str) :
  Forall (fun c => isspace c = true) ws ->
  (forall s, line <> s ++ [comma]) ->
  parse_line (line ++ ws) = parse_line line.
Proof.
  intros F Hend. rewrite !parse_line_eq, (preamble_trailing_space line ws F).
  destruct (re_match preamble line); cbn [negb]; [|reflexivity].
  assert (Hc : ~ In comma ws).
  { intro K. rewrite Forall_forall in F. specialize (F _ K). discriminate F. }
  destruct (split1_cases comma line) as [[Hn _]|(pre & rest0 & E & Hn & _)].
  - rewrite (getitem_split1_raises line Hn).
    rewrite getitem_split1_raises; [reflexivity|].
    intro K. apply in_app_or in K as [K|K]; contradiction.
  - subst line. rewrite <- app_assoc. cbn [app].
    rewrite !(getitem_split1_ret _ _ Hn). f_equal. unfold arity_tokens. do 2 f_equal.
    destruct (lstrip rest0) as [|c t] eqn:El.
    + now rewrite (lstrip_app_nil rest0 ws F El).
    + rewrite lstrip_app_cons by (rewrite El; discriminate). rewrite El.
      apply tokenize_app_space; [exact F|]. intro K.
      destruct (last_split_nil comma (c :: t) K) as [K'|(s' & Es)]; [discriminate K'|].
      destruct (lstrip_split rest0) as (w & Ew & _).
      apply (Hend (pre ++ comma :: w ++ s')).
      rewrite Ew at 1. rewrite El, Es. rewrite <- !app_assoc. cbn [app].
      now rewrite <- app_assoc.
Qed.

Lemma trailing_space_is_ignored_witness :
  parse_line (frame_1015 ++ [13; 10]) = parse_line frame_1015.
Proof.
  apply trailing_space_is_ignored.
  - repeat constructor.
  - intros s E. apply (f_equal (fun l => last l 0)) in E.
    rewrite last_last in E. vm_compute in E. discriminate E.
Defined.

(** X8.  When the text after the first comma ends with a comma, the empty last
    piece is dropped; but with white space after that comma (the line
    terminator) the last piece is not empty, and one more token, the empty
    string, is produced. *)
Theorem trailing_comma_then_space (rest0 s ws : str) :
  lstrip rest0 = s ++ [comma] ->
  ws <> [] -> Forall (fun c => isspace c = true) ws ->
  tokenize (lstrip rest0) = tokenize s /\
  tokenize (lstrip (rest0 ++ ws)) = tokenize s ++ [[]].
Proof.
  intros E Hne F.
  assert (Hc : ~ In comma ws).
  { intro K. rewrite Forall_forall in F. specialize (F _ K). discriminate F. }
  assert (T : tokenize (s ++ [comma]) = tokenize s).
  { unfold tokenize. rewrite split_ends_with_sep, filter_app. cbn [filter str_eqb negb].
    now rewrite app_nil_r. }
  split; [now rewrite E|].
  rewrite lstrip_app_cons by (rewrite E; now destruct s). rewrite E.
  unfold tokenize in *. rewrite (split_app_tail comma (s ++ [comma]) ws Hc).
  rewrite split_ends_with_sep, removelast_last, last_last.
  rewrite filter_app, map_app. f_equal. cbn [app filter].
  destruct ws as [|c ws]; [congruence|]. cbn [str_eqb negb map]. f_equal.
  now apply clean_space.
Qed.

Lemma trailing_comma_then_space_witness :
  tokenize (lstrip (of_string " 270,3.1,")) = tokenize (of_string "270,3.1") /\
  tokenize (lstrip (of_string " 270,3.1," ++ [10])) = tokenize (of_string "270,3.1") ++ [[]].
Proof.
  apply (trailing_comma_then_space (of_string " 270,3.1,") (of_string "270,3.1") [10]).
  - reflexivity.
  - discriminate.
  - repeat constructor.
Defined.

(** * Further properties of the hourly table *)

Lemma groupby_length (rows : list (Z * list (option float64))) :
  (List.length (groupby rows) <= List.length rows)%nat.
Proof.
  rewrite <- (length_map fst (groupby rows)), <- (length_map fst rows).
  apply NoDup_incl_length; [apply sorted_NoDup, groupby_sorted|].
  intros h Hh. now apply groupby_keys.
Qed.

Lemma with_FechaHora_length (df : list TRow) :
  (List.length (with_FechaHora df) <= List.length df)%nat.
Proof.
  induction df as [|r df IH]; [simpl; lia|]. cbn [with_FechaHora].
  destruct (FechaISO r); simpl; lia.
Qed.

(** X9.  Every row of the table has ten means, one for each column of [num];
    the table has at most as many rows as the frame has rows with a
    timestamp, which are at most the rows of the frame. *)
Theorem table_shape (df : list TRow) :
  Forall (fun row => List.length (means row) = 10%nat) (hourly_means df) /\
  (List.length (hourly_means df) <= List.length (with_FechaHora df))%nat /\
  (List.length (with_FechaHora df) <= List.length df)%nat.
Proof.
  split; [|split].
  - unfold hourly_means. apply Forall_forall. intros row H.
    apply in_map_iff in H as (g & <- & _). reflexivity.
  - unfold hourly_means. rewrite length_map. apply groupby_length.
  - apply with_FechaHora_length.
Qed.

(** X10.  The table has no row exactly when no row of the frame has a
    timestamp. *)
Theorem table_is_empty_iff (df : list TRow) :
  hourly_means df = [] <-> (forall r, In r df -> FechaISO r = None).
Proof.
  split.
  - intros E r Hr. destruct (FechaISO r) as [t|] eqn:Et; [|reflexivity].
    pose proof (row_of_record df r t Hr Et) as K. rewrite E in K. destruct K.
  - apply hourly_means_all_NaT.
Qed.

Lemma add_to_group_flat k r (gs : list (Z * list (list (option float64)))) :
  Permutation
    (flat_map (fun g => map (fun c => (fst g, c)) (snd g)) (add_to_group k r gs))
    ((k, r) :: flat_map (fun g => map (fun c => (fst g, c)) (snd g)) gs).
Proof.
  induction gs as [|[k' rs] gs IH]; cbn [add_to_group]; [reflexivity|].
  destruct (k <? k')%Z; [reflexivity|].
  destruct (Z.eqb_spec k k') as [->|_].
  - cbn [flat_map fst snd]. rewrite map_app. cbn [map].
    rewrite <- app_assoc. cbn [app]. symmetry. apply Permutation_middle.
  - cbn [flat_map fst snd]. rewrite IH. symmetry. apply Permutation_middle.
Qed.

(** X11.  The groups hold the rows that have a timestamp, each once and under
    its own hour: nothing is lost or counted twice, and the sizes of the
    hours of the table add up to the number of rows with a timestamp. *)
Theorem groupby_is_a_partition (df : list TRow) :
  Permutation
    (flat_map (fun g => map (fun c => (fst g, c)) (snd g)) (groupby (with_FechaHora df)))
    (with_FechaHora df) /\
  list_sum (map (fun row => List.length (rows_of_hour (FechaHora row) df)) (hourly_means df))
    = List.length (with_FechaHora df).
Proof.
  assert (P : forall rows,
    Permutation (flat_map (fun g => map (fun c => (fst g, c)) (snd g)) (groupby rows)) rows).
  { induction rows as [|kr rows IH] using rev_ind; [reflexivity|].
    rewrite groupby_snoc, add_to_group_flat, IH. destruct kr. cbn [fst snd].
    apply Permutation_cons_append. }
  split; [apply P|].
  rewrite <- (Permutation_length (P (with_FechaHora df))).
  unfold hourly_means. rewrite map_map.
  assert (G : forall g, In g (groupby (with_FechaHora df)) ->
              rows_of_hour (FechaHora (group_means g)) df = snd g).
  { intros [h rs] Hg. cbn [group_means FechaHora fst snd]. symmetry.
    now apply groupby_In. }
  induction (groupby (with_FechaHora df)) as [|g gs IH]; [reflexivity|].
  cbn [map list_sum flat_map]. rewrite length_app, length_map.
  rewrite (G g (or_introl eq_refl)).
  change (list_sum (?a :: ?l)) with (a + list_sum l)%nat.
  rewrite IH by (intros; apply G; now right). reflexivity.
Qed.

(** ** Hours and time order *)

Lemma floor_hour_multiple (t : Z) : exists q, floor_hour t = (q * hour_ns)%Z.
Proof. now exists (t / hour_ns)%Z. Qed.

(** X13.  Flooring to the hour is idempotent and monotone; a timestamp whose
    hour is earlier is itself earlier; and two timestamps of the same hour
    are less than an hour apart. *)
Theorem floor_hour_respects_time (t1 t2 : Z) :
  floor_hour (floor_hour t1) = floor_hour t1 /\
  ((t1 <= t2)%Z -> (floor_hour t1 <= floor_hour t2)%Z) /\
  ((floor_hour t1 < floor_hour t2)%Z -> (t1 < t2)%Z) /\
  (floor_hour t1 = floor_hour t2 -> (Z.abs (t2 - t1) < hour_ns)%Z).
Proof.
  assert (Hpos : (0 < hour_ns)%Z) by reflexivity.
  pose proof (floor_hour_bounds t1) as [_ B1].
  pose proof (floor_hour_bounds t2) as [_ B2].
  unfold floor_hour in *. repeat split.
  - now rewrite Z.div_mul by lia.
  - intro H. apply Z.mul_le_mono_nonneg_r; [lia|]. now apply Z.div_le_mono.
  - intro H. destruct (Z.lt_ge_cases t1 t2) as [|Hge]; [assumption|].
    apply (Z.div_le_mono _ _ hour_ns Hpos) in Hge.
    apply (Z.mul_le_mono_nonneg_r _ _ hour_ns) in Hge; lia.
  - intro E. lia.
Qed.

(** ** Frames that follow one another *)

Lemma sorted_app_lt (l1 l2 : list Z) :
  StronglySorted Z.lt l1 -> StronglySorted Z.lt l2 ->
  (forall a b, In a l1 -> In b l2 -> (a < b)%Z) ->
  StronglySorted Z.lt (l1 ++ l2).
Proof.
  induction 1 as [|a l1 S1 IH F]; intros S2 H; [exact S2|].
  cbn [app]. constructor.
  - apply IH; [exact S2|]. intros. apply H; [now right|assumption].
  - apply Forall_app. split; [exact F|].
    apply Forall_forall. intros b Hb. apply H; [now left|exact Hb].
Qed.

(** X14.  When every hour of a second frame is later than every hour of a first
    one, the table of the two frames together is the table of the first
    followed by the table of the second. *)
Theorem later_frame_appends_rows (df1 df2 : list TRow) :
  (forall r1 r2 t1 t2, In r1 df1 -> In r2 df2 ->
     FechaISO r1 = Some t1 -> FechaISO r2 = Some t2 ->
     (floor_hour t1 < floor_hour t2)%Z) ->
  hourly_means (df1 ++ df2) = hourly_means df1 ++ hourly_means df2.
Proof.
  intro H.
  assert (Hlt : forall a b, In a (map fst (with_FechaHora df1)) ->
                            In b (map fst (with_FechaHora df2)) -> (a < b)%Z).
  { intros a b Ha Hb. apply hour_occurs in Ha as (r1 & t1 & ? & ? & <-).
    apply hour_occurs in Hb as (r2 & t2 & ? & ? & <-). eauto. }
  rewrite !hourly_means_canonical.
  assert (K : map fst (groupby (with_FechaHora (df1 ++ df2))) =
              map fst (groupby (with_FechaHora df1)) ++ map fst (groupby (with_FechaHora df2))).
  { apply sorted_same_elements; [apply groupby_sorted| |].
    - apply sorted_app_lt; try apply groupby_sorted.
      intros a b Ha Hb. apply groupby_keys in Ha, Hb. now apply Hlt.
    - intro h. rewrite in_app_iff, !groupby_keys, with_FechaHora_app, map_app, in_app_iff.
      reflexivity. }
  rewrite K, map_app. f_equal; apply map_ext_in; intros h Hh; apply groupby_keys in Hh;
    unfold hour_row; f_equal; apply map_ext; intro j; do 2 f_equal;
    unfold rows_of_hour; rewrite with_FechaHora_app, keyed_app.
  - rewrite (keyed_absent h (with_FechaHora df2)); [apply app_nil_r|].
    intro K2. specialize (Hlt h h Hh K2). lia.
  - rewrite (keyed_absent h (with_FechaHora df1)); [reflexivity|].
    intro K1. specialize (Hlt h h K1 Hh). lia.
Qed.

(** ** Hours do not interfere *)

Lemma rows_of_hour_absent (h : Z) (df : list TRow) :
  (forall r t, In r df -> FechaISO r = Some t -> floor_hour t <> h) ->
  rows_of_hour h df = [].
Proof.
  intro H. unfold rows_of_hour. apply keyed_absent. intro K.
  apply hour_occurs in K as (r & t & Hr & Ht & Hf). exact (H r t Hr Ht Hf).
Qed.

(** X15.  A row of the table stays as it is when rows of other hours (or rows
    without timestamp) are added to the frame, before or after. *)
Theorem hour_row_is_local (df other : list TRow) (row : HourlyRow) :
  In row (hourly_means df) ->
  (forall r t, In r other -> FechaISO r = Some t -> floor_hour t <> FechaHora row) ->
  In row (hourly_means (df ++ other)) /\ In row (hourly_means (other ++ df)).
Proof.
  intros Hrow H. apply hourly_means_In in Hrow as [Hh E].
  pose proof (rows_of_hour_absent _ _ H) as A. unfold rows_of_hour in A.
  split; apply hourly_means_In; (split;
    [rewrite with_FechaHora_app, map_app; apply in_or_app; auto|]);
    rewrite E at 1; cbn [FechaHora]; unfold hour_row, rows_of_hour;
    rewrite with_FechaHora_app, keyed_app, A; [now rewrite app_nil_r|reflexivity].
Qed.

(** * Further properties of the readers *)

(** X16.  Two lines that pass the preamble test and carry the same text after
    their first comma give the same outcome: what stands before the first
    comma, the log timestamp, takes no part in the record. *)
Theorem log_timestamp_is_discarded (p1 p2 rest0 : str) :
  re_match preamble (p1 ++ comma :: rest0) = true ->
  re_match preamble (p2 ++ comma :: rest0) = true ->
  ~ In comma p1 -> ~ In comma p2 ->
  parse_line (p1 ++ comma :: rest0) = parse_line (p2 ++ comma :: rest0).
Proof.
  intros G1 G2 H1 H2. rewrite !parse_line_eq, G1, G2. cbn [negb].
  now rewrite (getitem_split1_ret p1 rest0 H1), (getitem_split1_ret p2 rest0 H2).
Qed.

Lemma log_timestamp_is_discarded_witness :
  parse_line (of_string "Mon 01 Jan 2024 10:15:02" ++ comma :: of_string "Q,1,2,3,7C")
  = parse_line (of_string "Sun 31 Dec 2023 23:59:59 (retransmitted)" ++ comma
                  :: of_string "Q,1,2,3,7C").
Proof.
  apply log_timestamp_is_discarded; try reflexivity;
    intro K; vm_compute in K; repeat (destruct K as [K|K]; [discriminate K|]); exact K.
Defined.

Lemma parse_lines_app (a b : list str) :
  parse_lines (a ++ b) =
  (fa <- parse_lines a ;; fb <- parse_lines b ;; Ret (fa ++ fb)).
Proof.
  induction a as [|l a IH]; cbn [app parse_lines bind].
  - now destruct (parse_lines b).
  - destruct (parse_line l) as [f|e]; cbn [bind]; [|reflexivity]. rewrite IH.
    destruct (parse_lines a) as [fa|e]; cbn [bind]; [|reflexivity].
    now destruct (parse_lines b).
Qed.

Lemma keep_records_app (fs fs' : list (option (list str))) :
  keep_records (fs ++ fs') = keep_records fs ++ keep_records fs'.
Proof. apply flat_map_app. Qed.

Lemma keep_records_length (fs : list (option (list str))) :
  (List.length (keep_records fs) <= List.length fs)%nat.
Proof.
  unfold keep_records. induction fs as [|f fs IH]; [simpl; lia|].
  cbn [flat_map]. rewrite length_app. destruct f as [[|x r]|]; simpl in *; lia.
Qed.

(** X17.  One line that passes the preamble test and has no comma, anywhere
    among the lines, makes [procesar_buffer] raise [IndexError], whatever
    the other lines hold. *)
Theorem one_bad_line_aborts_the_file
    (to_numeric : list str -> list (option float64))
    (to_datetime : list str -> list (option Z))
    (lines : list str) (l : str) :
  In l lines -> re_match preamble l = true -> ~ In comma l ->
  procesar_buffer to_numeric to_datetime lines = Raise IndexError.
Proof.
  intros Hin Hg Hc.
  assert (Hl : parse_line l = Raise IndexError) by (now apply parse_line_raises_iff).
  unfold procesar_buffer. now rewrite (parse_lines_raises lines l Hin Hl).
Qed.

(** X18.  A line that [parse_line] rejects can be taken out of the input, or
    put into it at any place, without changing the outcome of
    [procesar_buffer]. *)
Theorem rejected_line_changes_nothing
    (to_numeric : list str -> list (option float64))
    (to_datetime : list str -> list (option Z))
    (before after : list str) (l : str) :
  parse_line l = Ret None ->
  procesar_buffer to_numeric to_datetime (before ++ l :: after) =
  procesar_buffer to_numeric to_datetime (before ++ after).
Proof.
  intro H. unfold procesar_buffer. rewrite !parse_lines_app. cbn [parse_lines].
  rewrite H. cbn [bind].
  destruct (parse_lines before) as [fa|e]; cbn [bind]; [|reflexivity].
  destruct (parse_lines after) as [fb|e]; cbn [bind]; [|reflexivity].
  rewrite !keep_records_app. reflexivity.
Qed.

(** X19.  When [procesar_buffer] returns a table, the records behind it are
    exactly the records [parse_line] returns on the lines, there is at least
    one, each has 12 fields, the table is the hourly table of their frame,
    and it has at most as many rows as there are records, which are at most
    the lines. *)
Theorem returned_table_comes_from_records
    (to_numeric : list str -> list (option float64))
    (to_datetime : list str -> list (option Z))
    (lines : list str) (table : list HourlyRow) :
  procesar_buffer to_numeric to_datetime lines = Ret table ->
  exists filas,
    filas <> [] /\
    (forall f, In f filas <-> exists l, In l lines /\ parse_line l = Ret (Some f)) /\
    Forall (fun f => List.length f = 12%nat) filas /\
    table = hourly_means (build_frame to_numeric to_datetime filas) /\
    (List.length table <= List.length filas <= List.length lines)%nat.
Proof.
  intro H.
  destruct (procesar_buffer_cases to_numeric to_datetime lines)
    as [[E _]|[Hp [[_ E]|[Hne E]]]]; rewrite E in H; try discriminate H.
  injection H as <-. exists (keep_records (map parsed lines)).
  assert (Hin : forall f, In f (keep_records (map parsed lines)) <->
                          exists l, In l lines /\ parse_line l = Ret (Some f)).
  { intro f. rewrite keep_records_In, in_map_iff. split.
    - intros [(l & Hl & Hin) _]. exists l. split; [exact Hin|].
      rewrite (Hp l Hin). now rewrite Hl.
    - intros (l & Hin & Hl). split.
      + exists l. split; [|exact Hin]. unfold parsed. now rewrite Hl.
      + apply record_length in Hl. intros ->. discriminate Hl. }
  split; [exact Hne|]. split; [exact Hin|]. split.
  - apply Forall_forall. intros f Hf. apply Hin in Hf as (l & _ & Hl).
    now apply (record_length l).
  - split; [reflexivity|]. split.
    + unfold hourly_means. rewrite length_map.
      etransitivity; [apply groupby_length|].
      etransitivity; [apply with_FechaHora_length|].
      now rewrite build_frame_length.
    + etransitivity; [apply keep_records_length|]. now rewrite length_map.
Qed.

(** ** parse_file *)

Lemma parse_file_eq (lines : list str) :
  parse_file lines = (filas <- parse_lines lines ;; Ret (keep_records filas)).
Proof.
  induction lines as [|l lines IH]; [reflexivity|]. cbn [parse_file parse_lines].
  destruct (parse_line l) as [row|e]; cbn [bind]; [|reflexivity]. rewrite IH.
  destruct (parse_lines lines) as [fs|e]; cbn [bind]; [|reflexivity].
  f_equal. destruct row as [[|x r]|]; reflexivity.
Qed.

(** X20.  [parse_file] returns exactly when no line makes [parse_line] raise,
    and then gives the records of the accepted lines in file order; it
    raises [IndexError] exactly when some line does; and [procesar_buffer]
    aggregates the very records [parse_file] would collect from the same
    lines. *)
Theorem parse_file_collects_the_records (lines : list str) :
  (forall rows, parse_file lines = Ret rows <->
     (forall l, In l lines -> exists f, parse_line l = Ret f) /\
     rows = keep_records (map parsed lines)) /\
  (forall e, parse_file lines = Raise e <->
     e = IndexError /\ exists l, In l lines /\ parse_line l = Raise IndexError) /\
  (forall to_numeric to_datetime,
     procesar_buffer to_numeric to_datetime lines =
     (filas <- parse_file lines ;;
      if negb (truthy filas) then Raise (ValueError "Sin registros válidos.")
      else Ret (hourly_means (build_frame to_numeric to_datetime filas)))).
Proof.
  split; [|split].
  - intro rows. rewrite parse_file_eq.
    destruct (parse_lines_cases lines) as [[E H]|[E (l & Hin & Hl)]]; rewrite E; cbn [bind].
    + split.
      * intro K. injection K as <-. split; [|reflexivity].
        intros l Hl. exists (parsed l). now apply H.
      * intros [_ ->]. reflexivity.
    + split; [discriminate|]. intros [K _]. destruct (K l Hin) as (f & Hf).
      rewrite Hf in Hl. discriminate Hl.
  - intro e. rewrite parse_file_eq.
    destruct (parse_lines_cases lines) as [[E H]|[E (l & Hin & Hl)]]; rewrite E; cbn [bind].
    + split; [discriminate|]. intros [_ (l & Hin & Hl)].
      rewrite (H l Hin) in Hl. discriminate Hl.
    + split.
      * intro K. injection K as <-. split; [reflexivity|]. now exists l.
      * intros [-> _]. reflexivity.
  - intros to_numeric to_datetime. unfold procesar_buffer. rewrite parse_file_eq.
    now destruct (parse_lines lines).
Qed.

End Frame.

Arguments mkTRow {float64}.
Arguments FechaISO {float64}.
Arguments cells {float64}.
Arguments mkHourlyRow {float64}.
Arguments FechaHora {float64}.
Arguments means {float64}.
Arguments with_FechaHora {float64}.
Arguments add_to_group {float64}.
Arguments groupby {float64}.
Arguments column_values {float64}.
Arguments mean {float64}.
Arguments group_means {float64}.
Arguments hourly_means {float64}.
Arguments build_frame {float64}.
Arguments procesar_buffer {float64}.
Arguments keyed {float64}.
Arguments rows_of_hour {float64}.
Arguments hour_row {float64}.

(** * The pipeline in binary64 *)





(** The same three records of one hour, read in two orders: the frames hold
    the same rows, and the two means of the wind speed differ. *)
Lemma line_order_changes_the_mean :
  Permutation [calm_1205; calm_1225; breeze_1245] [calm_1205; breeze_1245; calm_1225] /\
  Permutation
    (build_frame sample_to_numeric sample_to_datetime
       (keep_records (map parsed [calm_1205; calm_1225; breeze_1245])))
    (build_frame sample_to_numeric sample_to_datetime
       (keep_records (map parsed [calm_1205; breeze_1245; calm_1225]))) /\
  (exists row,
     procesar_buffer pandas_mean sample_to_numeric sample_to_datetime
       [calm_1205; calm_1225; breeze_1245] = Ret [row] /\
     FechaHora row = timestamp 2024 1 1 12 0 0 /\
     nth VelViento (means row) None = Some 0x1.999999999999bp-3%float) /\
  (exists row,
     procesar_buffer pandas_mean sample_to_numeric sample_to_datetime
       [calm_1205; breeze_1245; calm_1225] = Ret [row] /\
     FechaHora row = timestamp 2024 1 1 12 0 0 /\
     nth VelViento (means row) None = Some 0x1.9999999999999p-3%float) /\
  (0x1.9999999999999p-3 <? 0x1.999999999999bp-3)%float = true.
Proof.
  split; [apply perm_skip, perm_swap|].
  split; [vm_compute; apply perm_skip, perm_swap|].
  split; [|split; [|reflexivity]];
    (eexists; split; [vm_compute; reflexivity|]; split; reflexivity).
Qed.




Lemma record_without_timestamp_is_dropped_witness :
  exists df1 r df2,
    build_frame sample_to_numeric sample_to_datetime station_records = df1 ++ r :: df2 /\
    List.length df1 = 2%nat /\
    FechaISO r = None /\
    hourly_means pandas_mean (build_frame sample_to_numeric sample_to_datetime station_records) = hourly_means pandas_mean (df1 ++ df2).
Proof.
  destruct (record_without_timestamp_is_dropped float pandas_mean
              sample_to_numeric sample_to_datetime station_records 2)
    as (df1 & r & df2 & E & L & T & M & _).
  - vm_compute. lia.
  - reflexivity.
  - exists df1, r, df2. repeat split; assumption.
Defined.

(** The two frames of 10:15 and 10:45 through the whole pipeline: one row,
    for 10:00, whose Temp is 21 and whose Humedad is that of the only frame
    that carried one. *)
Example station_hour_end_to_end :
  exists row,
    procesar_buffer pandas_mean sample_to_numeric sample_to_datetime
      [frame_1015; frame_1045] = Ret [row] /\
    FechaHora row = timestamp 2024 1 1 10 0 0 /\
    nth Temp (means row) None = Some 21%float /\
    nth Humedad (means row) None = Some 55%float.
Proof.
  eexists. split; [vm_compute; reflexivity|]. repeat split.
Qed.

Lemma later_frame_appends_rows_witness :
  hourly_means pandas_mean
    ([ {| FechaISO := Some (timestamp 2024 1 1 10 15 0); cells := [] |} ] ++
     [ {| FechaISO := Some (timestamp 2024 1 1 11 5 0); cells := [] |} ])
  = hourly_means pandas_mean
      [ {| FechaISO := Some (timestamp 2024 1 1 10 15 0); cells := [] |} ] ++
    hourly_means pandas_mean
      [ {| FechaISO := Some (timestamp 2024 1 1 11 5 0); cells := [] |} ].
Proof.
  apply later_frame_appends_rows.
  intros r1 r2 t1 t2 [<-|[]] [<-|[]] E1 E2.
  injection E1 as <-. injection E2 as <-. reflexivity.
Defined.

Lemma hour_row_is_local_witness :
  In (hour_row pandas_mean (floor_hour (timestamp 2024 1 1 10 15 0))
        [ {| FechaISO := Some (timestamp 2024 1 1 10 15 0); cells := [] |} ])
     (hourly_means pandas_mean
        ([ {| FechaISO := Some (timestamp 2024 1 1 10 15 0); cells := [] |} ] ++
         [ {| FechaISO := Some (timestamp 2024 1 1 11 5 0); cells := [] |} ])).
Proof.
  refine (proj1 (hour_row_is_local float pandas_mean _ _ _ _ _)).
  - apply (row_of_record float pandas_mean _
             {| FechaISO := Some (timestamp 2024 1 1 10 15 0); cells := [] |});
      [now left|reflexivity].
  - intros r t [<-|[]] E. injection E as <-. discriminate.
Defined.

Lemma one_bad_line_aborts_the_file_witness :
  procesar_buffer pandas_mean sample_to_numeric sample_to_datetime
    [frame_1015; of_string "Mon 01 Jan 2024 10:30:00"; frame_1045]
  = Raise IndexError.
Proof.
  apply (one_bad_line_aborts_the_file float pandas_mean _ _ _
           (of_string "Mon 01 Jan 2024 10:30:00")).
  - right. now left.
  - reflexivity.
  - intro K. vm_compute in K. repeat (destruct K as [K|K]; [discriminate K|]). exact K.
Defined.

Lemma rejected_line_changes_nothing_witness :
  procesar_buffer pandas_mean sample_to_numeric sample_to_datetime
    ([frame_1015] ++ of_string "ruido" :: [frame_1045])
  = procesar_buffer pandas_mean sample_to_numeric sample_to_datetime
      ([frame_1015] ++ [frame_1045]).
Proof. apply rejected_line_changes_nothing. reflexivity. Defined.

Lemma returned_table_comes_from_records_witness :
  exists filas,
    filas <> [] /\
    (forall f, In f filas <->
       exists l, In l [frame_1015; frame_1045] /\ parse_line l = Ret (Some f)) /\
    Forall (fun f => List.length f = 12%nat) filas /\
    hourly_means pandas_mean
      (build_frame sample_to_numeric sample_to_datetime
         (keep_records (map parsed [frame_1015; frame_1045])))
      = hourly_means pandas_mean
          (build_frame sample_to_numeric sample_to_datetime filas) /\
    (List.length (hourly_means pandas_mean
                    (build_frame sample_to_numeric sample_to_datetime
                       (keep_records (map parsed [frame_1015; frame_1045]))))
       <= List.length filas <= List.length [frame_1015; frame_1045])%nat.
Proof.
  exact (returned_table_comes_from_records float pandas_mean
           sample_to_numeric sample_to_datetime
           [frame_1015; frame_1045] _ eq_refl).
Defined.
